(** * GeocoderControlDirective: the mglGeocoder control adapter

    A shallow embedding of
    [projects/ngx-mapbox-gl-geocoder-control/src/lib/geocoder-control.directive.ts]
    and the properties of its attachment, change-reaction and
    event-forwarding procedures. *)

From stdpp Require Import gmap strings list fin_maps.
From Stdlib Require Import ZArith.

Open Scope string_scope.
Open Scope list_scope.

(** ** JavaScript values

    The inputs of the directive are ordinary JavaScript values at run time:
    a binding that was never set reads as [undefined], whatever the
    TypeScript annotation says.  Numbers are kept to the integral ones,
    objects, arrays and functions are references compared by identity. *)

Inductive jsval : Type :=
  | JUndefined
  | JNull
  | JBool (b : bool)
  | JNum (n : Z)
  | JStr (s : string)
  | JRef (r : nat).

#[global] Instance jsval_eq_dec : EqDecision jsval.
Proof. solve_decision. Defined.

(** ToBoolean. *)
Definition truthy (v : jsval) : bool :=
  match v with
  | JUndefined | JNull => false
  | JBool b => b
  | JNum n => negb (n =? 0)%Z
  | JStr s => negb (String.eqb s "")
  | JRef _ => true
  end.

(** [a || b] *)
Definition js_or (a b : jsval) : jsval := if truthy a then a else b.

(** [a === b] and [a !== b] on the values above. *)
Definition strict_eq (a b : jsval) : bool := bool_decide (a = b).
Definition strict_ne (a b : jsval) : bool := negb (strict_eq a b).

(** ** Plain objects used as option bags *)

Module Obj.

(** [o[k]]: a missing property reads as [undefined]. *)
Definition get (o : gmap string jsval) (k : string) : jsval :=
  default JUndefined (o !! k).

(** [Object.keys(o)] *)
Definition keys (o : gmap string jsval) : list string := (map_to_list o).*1.

(** An object literal [{ k1: v1, ..., kn: vn }]. *)
Definition literal (l : list (string * jsval)) : gmap string jsval :=
  list_to_map l.

(** Association-list lookup, the reading of a literal. *)
Fixpoint assoc (k : string) (l : list (string * jsval)) : option jsval :=
  match l with
  | [] => None
  | (k', v) :: l' => if decide (k' = k) then Some v else assoc k l'
  end.

End Obj.

(** The body of the [forEach] callback of [ngAfterContentInit]:
    [if (options[tkey] === undefined) delete options[tkey]]. *)
Definition strip_key (options : gmap string jsval) (key : string)
  : gmap string jsval :=
  if strict_eq (Obj.get options key) JUndefined
  then delete key options
  else options.

(** [Object.keys(options).forEach(...)]: the key list is taken once, the
    object is updated in place while the list is walked. *)
Definition strip_undefined (options : gmap string jsval) : gmap string jsval :=
  foldl strip_key options (Obj.keys options).

(** What stripping leaves of one property. *)
Definition kept (v : option jsval) : option jsval :=
  match v with
  | Some JUndefined => None
  | r => r
  end.

(** ** The directive and its collaborators *)

(** The [@Input()] properties, in the order the class declares them. *)
Module Inputs.
Record t : Type := mk {
  countries : jsval;
  placeholder : jsval;
  zoom : jsval;
  bbox : jsval;
  types : jsval;
  flyTo : jsval;
  minLength : jsval;
  limit : jsval;
  language : jsval;
  accessToken : jsval;
  filter : jsval;
  localGeocoder : jsval;
  mapboxgl : jsval;
  marker : jsval;
  proximity : jsval;
  searchInput : jsval
}.

(** The values the class body gives them: only [marker] has an
    initialiser, [marker: boolean | Marker = false]. *)
Definition initial : t :=
  mk JUndefined JUndefined JUndefined JUndefined JUndefined JUndefined
     JUndefined JUndefined JUndefined JUndefined JUndefined JUndefined
     JUndefined (JBool false) JUndefined JUndefined.
End Inputs.

(** An [EventEmitter], reduced to what the directive reads of it. *)
Record EventEmitter : Type := { observers : nat }.

(** [emitter.observed] *)
Definition observed (e : EventEmitter) : bool := negb (observers e =? 0)%nat.

(** The [GeocoderEvent] interface: the eight [@Output()] emitters. *)
Module GeocoderEvent.
Record t : Type := mk {
  clear : EventEmitter;
  loading : EventEmitter;
  results : EventEmitter;
  result : EventEmitter;
  error : EventEmitter;
  geocoderResults : EventEmitter;
  geocoderResult : EventEmitter;
  geocoderError : EventEmitter
}.
End GeocoderEvent.

(** A geocoding [Result]: its [id] and the rest of the feature. *)
Record Result : Type := { id : jsval; feature : jsval }.

(** What the widget emits, by event type, with the [evt] argument the
    listener receives. *)
Inductive widget_event : Type :=
  | EvResults (evt : jsval)
  | EvResult (evt_result : Result)
  | EvError (evt : jsval)
  | EvLoading (evt : jsval)
  | EvClear.

Definition event_type (e : widget_event) : string :=
  match e with
  | EvResults _ => "results"
  | EvResult _ => "result"
  | EvError _ => "error"
  | EvLoading _ => "loading"
  | EvClear => "clear"
  end.

(** The widget, as far as the directive drives it: the options it was
    built with and the event types a listener was registered for with
    [on], in registration order. *)
Record MapboxGeocoder : Type := {
  g_ref : nat;
  g_options : gmap string jsval;
  g_listeners : list string
}.

(** A [SimpleChange] of Angular. *)
Record SimpleChange : Type := {
  previousValue : jsval;
  currentValue : jsval;
  firstChange : bool
}.

Definition isFirstChange (c : SimpleChange) : bool := firstChange c.

(** Calls that leave the directive, in the order they are made. *)
Inductive effect : Type :=
  | NewMapboxGeocoder (options : gmap string jsval)
  | GeocoderOn (type : string)
  | GeocoderQuery (v : jsval)
  | GeocoderSetProximity (v : jsval)
  | MapServiceAddControl (control : option nat) (position : jsval)
  | DeprecationWarning (cls old new : string)
  | ZoneRun (emits : list (string * widget_event)).

Record Directive : Type := {
  inputs : Inputs.t;
  outputs : GeocoderEvent.t;
  geocoder : option MapboxGeocoder;
  lastResultId : jsval;
  MAPBOX_GEOCODER_API_KEY : jsval
}.

(** The directive together with what it is wired to. *)
Record World : Type := {
  this : Directive;
  (** [controlComponent.control], the slot, and [controlComponent.position] *)
  control : option nat;
  position : jsval;
  (** how often the directive has subscribed to [mapService.mapCreated$]
      and to [mapService.mapLoaded$] *)
  mapCreated_subscriptions : nat;
  mapLoaded_subscriptions : nat;
  (** the next object identity [new] hands out *)
  fresh : nat;
  log : list effect
}.

(** ** A state and exception monad over the world *)

Inductive outcome (A : Type) : Type :=
  | Return (a : A) (w : World)
  | Throw (message : string) (w : World).
Arguments Return {A} a w.
Arguments Throw {A} message w.

Definition M (A : Type) : Type := World -> outcome A.

#[global] Instance M_ret : MRet M := λ A a w, Return a w.
#[global] Instance M_bind : MBind M := λ A B f m w,
  match m w with
  | Return a w' => f a w'
  | Throw e w' => Throw e w'
  end.

Definition throw {A} (message : string) : M A := λ w, Throw message w.
Definition gets {A} (f : World -> A) : M A := λ w, Return (f w) w.
Definition modify (f : World -> World) : M unit := λ w, Return tt (f w).

Definition when (b : bool) (m : M unit) : M unit := if b then m else mret tt.

Fixpoint times (n : nat) (m : M unit) : M unit :=
  match n with
  | O => mret tt
  | S n' => m ;; times n' m
  end.

Definition with_this (d : Directive) (w : World) : World :=
  {| this := d; control := control w; position := position w;
     mapCreated_subscriptions := mapCreated_subscriptions w;
     mapLoaded_subscriptions := mapLoaded_subscriptions w;
     fresh := fresh w; log := log w |}.

Definition with_control (c : option nat) (w : World) : World :=
  {| this := this w; control := c; position := position w;
     mapCreated_subscriptions := mapCreated_subscriptions w;
     mapLoaded_subscriptions := mapLoaded_subscriptions w;
     fresh := fresh w; log := log w |}.

Definition with_subscriptions (created loaded : nat) (w : World) : World :=
  {| this := this w; control := control w; position := position w;
     mapCreated_subscriptions := created;
     mapLoaded_subscriptions := loaded;
     fresh := fresh w; log := log w |}.

Definition with_fresh (n : nat) (w : World) : World :=
  {| this := this w; control := control w; position := position w;
     mapCreated_subscriptions := mapCreated_subscriptions w;
     mapLoaded_subscriptions := mapLoaded_subscriptions w;
     fresh := n; log := log w |}.

Definition with_log (l : list effect) (w : World) : World :=
  {| this := this w; control := control w; position := position w;
     mapCreated_subscriptions := mapCreated_subscriptions w;
     mapLoaded_subscriptions := mapLoaded_subscriptions w;
     fresh := fresh w; log := l |}.

Definition with_geocoder (g : option MapboxGeocoder) (d : Directive) : Directive :=
  {| inputs := inputs d; outputs := outputs d; geocoder := g;
     lastResultId := lastResultId d;
     MAPBOX_GEOCODER_API_KEY := MAPBOX_GEOCODER_API_KEY d |}.

Definition with_lastResultId (v : jsval) (d : Directive) : Directive :=
  {| inputs := inputs d; outputs := outputs d; geocoder := geocoder d;
     lastResultId := v;
     MAPBOX_GEOCODER_API_KEY := MAPBOX_GEOCODER_API_KEY d |}.

Definition with_inputs (i : Inputs.t) (d : Directive) : Directive :=
  {| inputs := i; outputs := outputs d; geocoder := geocoder d;
     lastResultId := lastResultId d;
     MAPBOX_GEOCODER_API_KEY := MAPBOX_GEOCODER_API_KEY d |}.

(** Record one outgoing call. *)
Definition tell (e : effect) : M unit :=
  modify (λ w, with_log (log w ++ [e]) w).

(** ** The code of the directive *)

Definition class_name : string := "GeocoderControlDirective".

(** A method call on [this.geocoder]; on [undefined] it is a [TypeError]. *)
Definition on_geocoder {A} (method : string) (k : MapboxGeocoder -> M A) : M A :=
  d ← gets this;
  match geocoder d with
  | Some g => k g
  | None =>
      throw ("TypeError: Cannot read properties of undefined (reading '"
             +:+ method +:+ "')")
  end.

(** [this.geocoder.on(type, listener)] *)
Definition geocoder_on (type : string) : M unit :=
  on_geocoder "on" (λ g,
    modify (λ w,
      with_this
        (with_geocoder
           (Some {| g_ref := g_ref g; g_options := g_options g;
                    g_listeners := g_listeners g ++ [type] |})
           (this w)) w) ;;
    tell (GeocoderOn type)).

(** [this.geocoder.query(v)] and [this.geocoder.setProximity(v)] *)
Definition geocoder_query (v : jsval) : M unit :=
  on_geocoder "query" (λ _, tell (GeocoderQuery v)).

Definition geocoder_setProximity (v : jsval) : M unit :=
  on_geocoder "setProximity" (λ _, tell (GeocoderSetProximity v)).

(** [new MapboxGeocoder(options)], stored in [this.geocoder]. *)
Definition new_MapboxGeocoder (options : gmap string jsval) : M unit :=
  r ← gets fresh;
  modify (with_fresh (S r)) ;;
  tell (NewMapboxGeocoder options) ;;
  modify (λ w,
    with_this
      (with_geocoder
         (Some {| g_ref := r; g_options := options; g_listeners := [] |})
         (this w)) w).

(** The properties of the object literal of [ngAfterContentInit], lines 108
    to 124, as written. *)
Definition options_entries (d : Directive) : list (string * jsval) :=
  let i := inputs d in
  [ ("proximity", Inputs.proximity i);
    ("countries", Inputs.countries i);
    ("placeholder", Inputs.placeholder i);
    ("zoom", Inputs.zoom i);
    ("bbox", Inputs.bbox i);
    ("types", Inputs.types i);
    ("flyTo", Inputs.flyTo i);
    ("minLength", Inputs.minLength i);
    ("limit", Inputs.limit i);
    ("language", Inputs.language i);
    ("filter", Inputs.filter i);
    ("localGeocoder", Inputs.localGeocoder i);
    ("accessToken", js_or (Inputs.accessToken i) (MAPBOX_GEOCODER_API_KEY d));
    ("mapboxgl", Inputs.mapboxgl i);
    ("marker", Inputs.marker i) ].

Definition options_literal (d : Directive) : gmap string jsval :=
  Obj.literal (options_entries d).

(** The object handed to the constructor of the widget. *)
Definition constructor_options (d : Directive) : gmap string jsval :=
  strip_undefined (options_literal d).

(** [deprecationWarning.bind(undefined, GeocoderControlDirective.name)] *)
Definition dw (old new : string) : M unit :=
  tell (DeprecationWarning class_name old new).

Definition warnDeprecatedOutputs (events : GeocoderEvent.t) : M unit :=
  when (observed (GeocoderEvent.results events))
    (dw "results" "geocoderResults") ;;
  when (observed (GeocoderEvent.result events))
    (dw "result" "geocoderResult") ;;
  when (observed (GeocoderEvent.error events))
    (dw "error" "geocoderError").

Definition hookEvents (events : GeocoderEvent.t) : M unit :=
  warnDeprecatedOutputs events ;;
  when (observed (GeocoderEvent.results events)
        || observed (GeocoderEvent.geocoderResults events))
    (geocoder_on "results") ;;
  when (observed (GeocoderEvent.geocoderResult events)
        || observed (GeocoderEvent.result events))
    (geocoder_on "result") ;;
  when (observed (GeocoderEvent.error events)
        || observed (GeocoderEvent.geocoderError events))
    (geocoder_on "error") ;;
  when (observed (GeocoderEvent.loading events))
    (geocoder_on "loading") ;;
  when (observed (GeocoderEvent.clear events))
    (geocoder_on "clear").

Definition addControl : M unit :=
  d ← gets this ;
  modify (with_control (g_ref <$> geocoder d)) ;;
  c ← gets control ;
  pos ← gets position ;
  tell (MapServiceAddControl c pos).

(** The subscriber of [mapCreated$], lines 104 to 135. *)
Definition onMapCreated : M unit :=
  c ← gets control ;
  match c with
  | Some _ => throw "Another control is already set for this control"
  | None =>
      d ← gets this ;
      new_MapboxGeocoder (constructor_options d) ;;
      hookEvents (outputs d) ;;
      addControl
  end.

(** The subscriber of [mapLoaded$], line 138. *)
Definition onMapLoaded : M unit :=
  d ← gets this ;
  geocoder_query (Inputs.searchInput (inputs d)).

Definition ngAfterContentInit : M unit :=
  modify (λ w, with_subscriptions (S (mapCreated_subscriptions w))
                                  (mapLoaded_subscriptions w) w) ;;
  d ← gets this ;
  when (truthy (Inputs.searchInput (inputs d)))
    (modify (λ w, with_subscriptions (mapCreated_subscriptions w)
                                     (S (mapLoaded_subscriptions w)) w)).

Definition ngOnChanges (changes : gmap string SimpleChange) : M unit :=
  d ← gets this ;
  match geocoder d with
  | None => mret tt
  | Some _ =>
      match changes !! "proximity" with
      | Some c =>
          when (negb (isFirstChange c)) (geocoder_setProximity (currentValue c))
      | None => mret tt
      end ;;
      match changes !! "searchInput" with
      | Some _ =>
          d' ← gets this ;
          geocoder_query (Inputs.searchInput (inputs d'))
      | None => mret tt
      end
  end.

(** [this.zone.run(() => { emits })] *)
Definition zone_run (emits : list (string * widget_event)) : M unit :=
  tell (ZoneRun emits).

(** The listeners [hookEvents] registers, one per event type. *)
Definition listener (e : widget_event) : M unit :=
  match e with
  | EvResults _ => zone_run [("geocoderResults", e); ("results", e)]
  | EvResult r =>
      d ← gets this ;
      (* Workaround for mapbox-gl-geocoder issue 99 *)
      if strict_ne (lastResultId d) (id r) then
        modify (λ w, with_this (with_lastResultId (id r) (this w)) w) ;;
        zone_run [("geocoderResult", e); ("result", e)]
      else mret tt
  | EvError _ => zone_run [("geocoderError", e); ("error", e)]
  | EvLoading _ => zone_run [("loading", e)]
  | EvClear => zone_run [("clear", e)]
  end.

(** ** What reaches the directive *)

(** The calls the framework, the map service and the widget make into the
    directive. *)
Inductive stimulus : Type :=
  | AfterContentInit
  | MapCreated
  | MapLoaded
  | Changes (now : Inputs.t) (changes : gmap string SimpleChange)
  | Widget (e : widget_event).

(** How many listeners the widget holds for one event type. *)
Definition listeners_for (type : string) (g : MapboxGeocoder) : nat :=
  length (List.filter (String.eqb type) (g_listeners g)).

(** Modelled from the spec: the map service and the event emitter of the
    widget are collaborators whose code is not in this file.  The map
    service offers "a notification stream fired once the map exists" and
    "a second stream fired once the map has finished loading"; a
    notification runs every subscriber the directive has registered on the
    stream, and an exception of a subscriber ends the delivery.  The
    widget calls, for an event it emits, the listeners registered with
    [on] for that type.  The framework writes the bound inputs and then
    calls [ngOnChanges]. *)
Definition deliver (s : stimulus) : M unit :=
  match s with
  | AfterContentInit => ngAfterContentInit
  | MapCreated => n ← gets mapCreated_subscriptions ; times n onMapCreated
  | MapLoaded => n ← gets mapLoaded_subscriptions ; times n onMapLoaded
  | Changes now changes =>
      (* the framework writes the bound properties, then notifies *)
      modify (λ w, with_this (with_inputs now (this w)) w) ;;
      ngOnChanges changes
  | Widget e =>
      d ← gets this ;
      match geocoder d with
      | Some g => times (listeners_for (event_type e) g) (listener e)
      | None => mret tt
      end
  end.

Fixpoint run (ss : list stimulus) : M unit :=
  match ss with
  | [] => mret tt
  | s :: ss' => deliver s ;; run ss'
  end.

(** The directive as the framework has built it when it calls
    [ngAfterContentInit]: the bindings are written, nothing is attached. *)
Definition created (i : Inputs.t) (ev : GeocoderEvent.t) (key pos : jsval)
  : World :=
  {| this := {| inputs := i; outputs := ev; geocoder := None;
                lastResultId := JUndefined;
                MAPBOX_GEOCODER_API_KEY := key |};
     control := None; position := pos;
     mapCreated_subscriptions := 0; mapLoaded_subscriptions := 0;
     fresh := 0; log := [] |}.

(** ** Reading the log *)

Definition constructions (l : list effect) : list (gmap string jsval) :=
  omap (λ e, match e with NewMapboxGeocoder o => Some o | _ => None end) l.

Definition registrations (l : list effect) : list string :=
  omap (λ e, match e with GeocoderOn t => Some t | _ => None end) l.

Definition queries (l : list effect) : list jsval :=
  omap (λ e, match e with GeocoderQuery v => Some v | _ => None end) l.

Definition proximities (l : list effect) : list jsval :=
  omap (λ e, match e with GeocoderSetProximity v => Some v | _ => None end) l.

(** The events emitted on one outward channel, oldest first. *)
Definition emitted (channel : string) (l : list effect) : list widget_event :=
  flat_map (λ e, match e with
                 | ZoneRun emits =>
                     (List.filter (λ p, String.eqb channel p.1) emits).*2
                 | _ => []
                 end) l.

(** ** The attachment in closed form *)

(** The event types [hookEvents] registers a listener for, in order. *)
Definition hooked (events : GeocoderEvent.t) : list string :=
  (if observed (GeocoderEvent.results events)
      || observed (GeocoderEvent.geocoderResults events)
   then ["results"] else []) ++
  (if observed (GeocoderEvent.geocoderResult events)
      || observed (GeocoderEvent.result events)
   then ["result"] else []) ++
  (if observed (GeocoderEvent.error events)
      || observed (GeocoderEvent.geocoderError events)
   then ["error"] else []) ++
  (if observed (GeocoderEvent.loading events) then ["loading"] else []) ++
  (if observed (GeocoderEvent.clear events) then ["clear"] else []).

Definition deprecated (events : GeocoderEvent.t) : list effect :=
  (if observed (GeocoderEvent.results events)
   then [DeprecationWarning class_name "results" "geocoderResults"] else []) ++
  (if observed (GeocoderEvent.result events)
   then [DeprecationWarning class_name "result" "geocoderResult"] else []) ++
  (if observed (GeocoderEvent.error events)
   then [DeprecationWarning class_name "error" "geocoderError"] else []).

Definition attached (w : World) : World :=
  let d := this w in
  let g := {| g_ref := fresh w;
              g_options := constructor_options d;
              g_listeners := hooked (outputs d) |} in
  {| this := with_geocoder (Some g) d;
     control := Some (fresh w);
     position := position w;
     mapCreated_subscriptions := mapCreated_subscriptions w;
     mapLoaded_subscriptions := mapLoaded_subscriptions w;
     fresh := S (fresh w);
     log := log w ++
            [NewMapboxGeocoder (constructor_options d)] ++
            deprecated (outputs d) ++
            map GeocoderOn (hooked (outputs d)) ++
            [MapServiceAddControl (Some (fresh w)) (position w)] |}.

(** An attachment that goes through builds exactly one widget, with
    [options], and keeps it in [this.geocoder]. *)
Definition constructs (w : World) (options : gmap string jsval) : Prop :=
  ∃ w', onMapCreated w = Return tt w' ∧
        g_options <$> geocoder (this w') = Some options ∧
        constructions (log w') = constructions (log w) ++ [options].

(** ** The claims in the words of the specification *)

(** The proximity a change notification has the widget take: "if the
    proximity value changed and this is not the update that supplied its
    initial value". *)
Definition proximity_pushed (changes : gmap string SimpleChange)
  : list jsval :=
  match changes !! "proximity" with
  | Some c => if firstChange c then [] else [currentValue c]
  | None => []
  end.

(** The five event types of the widget and, for each, the outward
    channels it is re-emitted on. *)
Definition event_types : list string :=
  ["results"; "result"; "error"; "loading"; "clear"].

Definition outward (events : GeocoderEvent.t) (type : string)
  : list EventEmitter :=
  if decide (type = "results") then
    [GeocoderEvent.geocoderResults events; GeocoderEvent.results events]
  else if decide (type = "result") then
    [GeocoderEvent.geocoderResult events; GeocoderEvent.result events]
  else if decide (type = "error") then
    [GeocoderEvent.geocoderError events; GeocoderEvent.error events]
  else if decide (type = "loading") then [GeocoderEvent.loading events]
  else if decide (type = "clear") then [GeocoderEvent.clear events]
  else [].

(** "at least one subscriber is currently listening on the corresponding
    outward channel(s)" *)
Definition has_listeners (events : GeocoderEvent.t) (type : string) : bool :=
  existsb observed (outward events type).

(** The number of event types with listeners. *)
Definition event_types_with_listeners (events : GeocoderEvent.t) : nat :=
  length (List.filter (has_listeners events) event_types).

(** "the number of channels with listeners", over the eight outputs. *)
Definition outward_channels (events : GeocoderEvent.t) : list EventEmitter :=
  [ GeocoderEvent.clear events; GeocoderEvent.loading events;
    GeocoderEvent.results events; GeocoderEvent.result events;
    GeocoderEvent.error events; GeocoderEvent.geocoderResults events;
    GeocoderEvent.geocoderResult events; GeocoderEvent.geocoderError events ].

Definition channels_with_listeners (events : GeocoderEvent.t) : nat :=
  length (List.filter observed (outward_channels events)).

(** "retains the identifier of the last forwarded result and silently
    drops a repeat emission carrying the same identifier" *)
Fixpoint forwarded (last : jsval) (rs : list Result) : list Result :=
  match rs with
  | [] => []
  | r :: rs' =>
      if decide (id r = last) then forwarded last rs'
      else r :: forwarded (id r) rs'
  end.

(** "forwarding only the first occurrence per identifier" *)
Fixpoint first_occurrences (seen : list jsval) (rs : list Result)
  : list Result :=
  match rs with
  | [] => []
  | r :: rs' =>
      if decide (id r ∈ seen) then first_occurrences seen rs'
      else r :: first_occurrences (id r :: seen) rs'
  end.

(** A notification of the framework as a stimulus. *)
Definition notification (n : Inputs.t * gmap string SimpleChange) : stimulus :=
  Changes n.1 n.2.

(** The changes of [proximity] that a sequence of notifications carries. *)
Definition proximity_changes (ns : list (Inputs.t * gmap string SimpleChange))
  : list SimpleChange :=
  omap (λ n, n.2 !! "proximity") ns.

(** The flags of a sequence in which "the very first change notification"
    of the input is the one the framework reports as its first change. *)
Definition first_is_flagged (cs : list SimpleChange) : Prop :=
  match cs with
  | [] => True
  | c :: cs' => firstChange c = true ∧ Forall (λ c', firstChange c' = false) cs'
  end.

(** ** Closed forms of the runs *)

(** The world after [ngAfterContentInit] and the first notification of
    [mapCreated$], for a directive created with the given bindings. *)
Definition subscribed (i : Inputs.t) (ev : GeocoderEvent.t) (key pos : jsval)
  : World :=
  with_subscriptions 1 (if truthy (Inputs.searchInput i) then 1 else 0)
    (created i ev key pos).

Definition wired (i : Inputs.t) (ev : GeocoderEvent.t) (key pos : jsval)
  : World :=
  attached (subscribed i ev key pos).

(** What one notification of changes adds to the log of an attached
    directive. *)
Definition change_effects (d : Directive) (changes : gmap string SimpleChange)
  : list effect :=
  map GeocoderSetProximity (proximity_pushed changes) ++
  match changes !! "searchInput" with
  | Some _ => [GeocoderQuery (Inputs.searchInput (inputs d))]
  | None => []
  end.

(** The single [zone.run] of a forwarded result. *)
Definition result_emission (r : Result) : effect :=
  ZoneRun [("geocoderResult", EvResult r); ("result", EvResult r)].

(** ** Sample configurations *)

Module Sample.

Definition silent : EventEmitter := {| observers := 0 |}.
Definition heard : EventEmitter := {| observers := 1 |}.

(** No subscriber at all. *)
Definition nobody : GeocoderEvent.t :=
  GeocoderEvent.mk silent silent silent silent silent silent silent silent.

(** One subscriber, on the deprecated [result] output only. *)
Definition legacy_result : GeocoderEvent.t :=
  GeocoderEvent.mk silent silent silent heard silent silent silent silent.

(** Subscribers on [results] and [geocoderResults] and on [clear]. *)
Definition both_results : GeocoderEvent.t :=
  GeocoderEvent.mk heard silent heard silent silent heard silent silent.

(** Bindings with a placeholder, a zoom and the given [accessToken],
    [marker] and [searchInput]. *)
Definition bound (token marker search : jsval) : Inputs.t :=
  Inputs.mk JUndefined (JStr "Search") (JNum 12) JUndefined JUndefined
    (JBool false) JUndefined JUndefined JUndefined token JUndefined
    JUndefined JUndefined marker JUndefined search.

Definition top_right : jsval := JStr "top-right".

(** A directive whose host control already holds a control. *)
Definition occupied : World :=
  with_subscriptions 1 0
    (with_control (Some 7)
       (created (bound (JStr "A") (JBool false) JUndefined) legacy_result
          (JStr "B") top_right)).

Definition result_X : Result := {| id := JStr "place.1"; feature := JRef 1 |}.
Definition result_X' : Result := {| id := JStr "place.1"; feature := JRef 2 |}.
Definition result_Y : Result := {| id := JStr "place.2"; feature := JRef 3 |}.

Definition moved (to : jsval) (first : bool) : gmap string SimpleChange :=
  {[ "proximity" :=
       {| previousValue := JUndefined; currentValue := to;
          firstChange := first |} ]}.

Definition typed (text : jsval) (first : bool) : gmap string SimpleChange :=
  {[ "searchInput" :=
       {| previousValue := JUndefined; currentValue := text;
          firstChange := first |} ]}.

End Sample.

#[global] Arguments constructor_options : simpl never.
#[global] Arguments strip_undefined : simpl never.

(** ** Further readings of the log and of a run *)

(** The world a computation ends in, whether it returned or threw. *)
Definition final {A} (o : outcome A) : World :=
  match o with
  | Return _ w => w
  | Throw _ w => w
  end.

(** The deprecation warnings, as (old name, new name). *)
Definition warnings (l : list effect) : list (string * string) :=
  omap (λ e, match e with
             | DeprecationWarning _ old new => Some (old, new)
             | _ => None
             end) l.

(** The calls of [mapService.addControl]. *)
Definition controls_added (l : list effect) : list (option nat * jsval) :=
  omap (λ e, match e with
             | MapServiceAddControl c pos => Some (c, pos)
             | _ => None
             end) l.

(** The calls that set the widget up: its construction, the deprecation
    warnings, the registrations of listeners and the placement on the map. *)
Definition is_setup (e : effect) : bool :=
  match e with
  | NewMapboxGeocoder _ | GeocoderOn _ | DeprecationWarning _ _ _
  | MapServiceAddControl _ _ => true
  | GeocoderQuery _ | GeocoderSetProximity _ | ZoneRun _ => false
  end.

Definition setup_calls (l : list effect) : list effect := List.filter is_setup l.

(** The calls that drive the widget or notify the subscribers. *)
Definition live_calls (l : list effect) : list effect :=
  List.filter (λ e, negb (is_setup e)) l.

(** The deprecated outputs with their replacements, in the order
    [warnDeprecatedOutputs] looks at them. *)
Definition legacy_outputs (events : GeocoderEvent.t)
  : list (EventEmitter * (string * string)) :=
  [ (GeocoderEvent.results events, ("results", "geocoderResults"));
    (GeocoderEvent.result events, ("result", "geocoderResult"));
    (GeocoderEvent.error events, ("error", "geocoderError")) ].

(** The keys of the object literal of [ngAfterContentInit]. *)
Definition option_names : list string :=
  [ "proximity"; "countries"; "placeholder"; "zoom"; "bbox"; "types"; "flyTo";
    "minLength"; "limit"; "language"; "filter"; "localGeocoder"; "accessToken";
    "mapboxgl"; "marker" ].

Definition with_outputs (ev : GeocoderEvent.t) (d : Directive) : Directive :=
  {| inputs := inputs d; outputs := ev; geocoder := geocoder d;
     lastResultId := lastResultId d;
     MAPBOX_GEOCODER_API_KEY := MAPBOX_GEOCODER_API_KEY d |}.

(** What one event of a widget that was hooked under the outputs [events]
    adds to the log, and the [lastResultId] it leaves. *)
Definition widget_step (events : GeocoderEvent.t) (last : jsval)
  (e : widget_event) : list effect * jsval :=
  if has_listeners events (event_type e) then
    match e with
    | EvResults _ => ([ZoneRun [("geocoderResults", e); ("results", e)]], last)
    | EvResult r =>
        if decide (id r = last) then ([], last)
        else ([result_emission r], id r)
    | EvError _ => ([ZoneRun [("geocoderError", e); ("error", e)]], last)
    | EvLoading _ => ([ZoneRun [("loading", e)]], last)
    | EvClear => ([ZoneRun [("clear", e)]], last)
    end
  else ([], last).

Fixpoint widget_effects (events : GeocoderEvent.t) (last : jsval)
  (es : list widget_event) : list effect :=
  match es with
  | [] => []
  | e :: es' =>
      (widget_step events last e).1 ++
      widget_effects events (widget_step events last e).2 es'
  end.

(** The [result] events of a sequence of widget events. *)
Definition results_of (es : list widget_event) : list Result :=
  omap (λ e, match e with EvResult r => Some r | _ => None end) es.

(** The events of one type in a sequence of widget events. *)
Definition of_type (type : string) (es : list widget_event)
  : list widget_event :=
  List.filter (λ e, String.eqb type (event_type e)) es.

(** No two neighbours of the list carry the same id. *)
Fixpoint no_repeat (last : jsval) (rs : list Result) : Prop :=
  match rs with
  | [] => True
  | r :: rs' => id r ≠ last ∧ no_repeat (id r) rs'
  end.

(** Further sample configurations. *)
Module Scene.

(** Subscribers on every output. *)
Definition everybody : GeocoderEvent.t :=
  GeocoderEvent.mk Sample.heard Sample.heard Sample.heard Sample.heard
    Sample.heard Sample.heard Sample.heard Sample.heard.

(** Subscribers on the current names only. *)
Definition current_names : GeocoderEvent.t :=
  GeocoderEvent.mk Sample.heard Sample.heard Sample.silent Sample.silent
    Sample.silent Sample.heard Sample.heard Sample.heard.

(** A result of a local geocoder that carries no id. *)
Definition anonymous (n : nat) : Result :=
  {| id := JUndefined; feature := JRef n |}.

(** A change of [countries] alone. *)
Definition recountried : gmap string SimpleChange :=
  {[ "countries" :=
       {| previousValue := JStr "fr"; currentValue := JStr "de";
          firstChange := false |} ]}.

(** A change of [proximity] and of [searchInput] in one notification. *)
Definition moved_and_typed (to text : jsval) : gmap string SimpleChange :=
  <[ "proximity" :=
       {| previousValue := JUndefined; currentValue := to;
          firstChange := false |} ]>
  (Sample.typed text false).

End Scene.

(** What every call into the directive but an attachment leaves alone: the
    slot, the identity of the widget and the calls that set it up. *)
Definition settled (w w' : World) : Prop :=
  control w' = control w ∧
  g_ref <$> geocoder (this w') = g_ref <$> geocoder (this w) ∧
  setup_calls (log w') = setup_calls (log w).

(** A computation that leaves them alone, however it ends. *)
Definition keeps_setup {A} (m : M A) : Prop := ∀ w, settled w (final (m w)).

(** The slot and [this.geocoder] hold the same widget or both nothing,
    and a widget was constructed exactly when they hold one. *)
Definition consistent (w : World) : Prop :=
  control w = g_ref <$> geocoder (this w) ∧
  length (constructions (log w)) =
    match control w with Some _ => 1 | None => 0 end.

(** ** Between the attachment and the loading of the map *)

(** The calls that can reach an attached directive before the map has
    loaded: change notifications and events of the widget. *)
Definition before_load (s : stimulus) : bool :=
  match s with
  | Changes _ _ | Widget _ => true
  | AfterContentInit | MapCreated | MapLoaded => false
  end.

(** The queries of the changes of [searchInput] among them. *)
Definition change_queries (ss : list stimulus) : list jsval :=
  flat_map (λ s, match s with
                 | Changes now changes =>
                     match changes !! "searchInput" with
                     | Some _ => [Inputs.searchInput now]
                     | None => []
                     end
                 | _ => []
                 end) ss.

(** The inputs as the last change notification has written them. *)
Definition latest (i : Inputs.t) (ss : list stimulus) : Inputs.t :=
  foldl (λ cur s, match s with Changes now _ => now | _ => cur end) i ss.

(** The calls that can reach a directive once it is attached. *)
Definition after_attachment (s : stimulus) : bool :=
  match s with
  | Changes _ _ | Widget _ | MapLoaded => true
  | AfterContentInit | MapCreated => false
  end.

(** The queries they cause, in order: one for each change of
    [searchInput], with the value written, and one for each notification
    that the map has loaded, with the search input as it is then. *)
Fixpoint run_queries (cur : Inputs.t) (ss : list stimulus) : list jsval :=
  match ss with
  | [] => []
  | Changes now changes :: ss' =>
      match changes !! "searchInput" with
      | Some _ => [Inputs.searchInput now]
      | None => []
      end ++ run_queries now ss'
  | MapLoaded :: ss' => Inputs.searchInput cur :: run_queries cur ss'
  | _ :: ss' => run_queries cur ss'
  end.

(** * Properties *)

(** ** Stripping the absent options *)

Lemma literal_lookup l k : Obj.literal l !! k = Obj.assoc k l.
Proof.
  unfold Obj.literal. induction l as [|[k' v] l IH]; simpl.
  - apply lookup_empty.
  - rewrite lookup_insert. destruct (decide (k' = k)); [done | apply IH].
Qed.

Lemma strip_key_lookup o key k :
  strip_key o key !! k = if decide (key = k) then kept (o !! k) else o !! k.
Proof.
  unfold strip_key, strict_eq, Obj.get.
  destruct (decide (key = k)) as [->|Hne].
  - destruct (o !! k) as [v|] eqn:Hk; simpl.
    + case_bool_decide as Hv.
      * subst v. simpl. apply lookup_delete_eq.
      * rewrite Hk. destruct v; done.
    + rewrite lookup_delete_eq. done.
  - destruct (bool_decide _); [by rewrite lookup_delete_ne | done].
Qed.

Lemma kept_idemp v : kept (kept v) = kept v.
Proof. by destruct v as [[]|]. Qed.

Lemma foldl_strip_lookup ks o k :
  foldl strip_key o ks !! k =
  if decide (k ∈ ks) then kept (o !! k) else o !! k.
Proof.
  revert o. induction ks as [|key ks IH]; intros o.
  - case_decide as Hin; [by apply elem_of_nil in Hin | done].
  - cbn [foldl]. rewrite IH, strip_key_lookup.
    destruct (decide (key = k)) as [->|Hne].
    + rewrite (decide_True (P := k ∈ k :: ks)) by (apply elem_of_cons; auto).
      case_decide; [apply kept_idemp | done].
    + destruct (decide (k ∈ ks)) as [Hin|Hnin].
      * rewrite decide_True; [done | by apply elem_of_cons; right].
      * rewrite decide_False; [done |].
        intros [?|?]%elem_of_cons; congruence.
Qed.

Lemma strip_undefined_lookup o k : strip_undefined o !! k = kept (o !! k).
Proof.
  unfold strip_undefined. rewrite foldl_strip_lookup.
  destruct (decide (k ∈ Obj.keys o)) as [Hin|Hnin]; [done |].
  destruct (o !! k) as [v|] eqn:Hk; [|done].
  exfalso. apply Hnin. unfold Obj.keys.
  apply list_elem_of_fmap. exists (k, v). split; [done |].
  by apply elem_of_map_to_list.
Qed.

(** ** Running the monad *)

Ltac run_M :=
  unfold mbind, M_bind, mret, M_ret, gets, modify, tell, throw, when; simpl.

(** Bring a world built by the setters to an explicit record. *)
Ltac norm_world :=
  cbv beta iota delta
      [with_log with_this with_geocoder with_control with_fresh
       with_subscriptions with_lastResultId with_inputs
       this control position mapCreated_subscriptions mapLoaded_subscriptions
       fresh log inputs outputs geocoder lastResultId MAPBOX_GEOCODER_API_KEY
       g_ref g_options g_listeners].

Lemma bind_Return {A B} (m : M A) (k : A → M B) w a w' :
  m w = Return a w' → (m ≫= k) w = k a w'.
Proof. unfold mbind, M_bind. by intros ->. Qed.

Lemma bind_Throw {A B} (m : M A) (k : A → M B) w e w' :
  m w = Throw e w' → (m ≫= k) w = Throw e w'.
Proof. unfold mbind, M_bind. by intros ->. Qed.

Lemma bind_assoc {A B C} (m : M A) (f : A → M B) (g : B → M C) w :
  ((m ≫= f) ≫= g) w = (m ≫= (λ x, f x ≫= g)) w.
Proof. unfold mbind, M_bind. by destruct (m w). Qed.

Lemma when_dw b old new w :
  when b (dw old new) w =
  Return tt (with_log (log w ++ if b then [DeprecationWarning class_name old new]
                                else []) w).
Proof.
  destruct w, b; unfold dw; run_M; unfold with_log; simpl;
    rewrite ?app_nil_r; reflexivity.
Qed.

Lemma when_geocoder_on b type d g w :
  this w = d → geocoder d = Some g →
  when b (geocoder_on type) w =
  Return tt
    (with_log (log w ++ if b then [GeocoderOn type] else [])
       (with_this
          (with_geocoder
             (Some {| g_ref := g_ref g; g_options := g_options g;
                      g_listeners :=
                        g_listeners g ++ if b then [type] else [] |}) d) w)).
Proof.
  intros <- Hg. destruct w as [d c pos mc ml fr lg]. simpl in Hg.
  destruct d as [i ev g' last key]. simpl in Hg. subst g'. destruct g.
  destruct b; unfold geocoder_on, on_geocoder; run_M;
    unfold with_log, with_this, with_geocoder; simpl;
    rewrite ?app_nil_r; reflexivity.
Qed.

Lemma onMapCreated_free w :
  control w = None → onMapCreated w = Return tt (attached w).
Proof.
  intros Hc. unfold onMapCreated.
  rewrite (bind_Return _ _ w None w) by (unfold gets; by rewrite Hc).
  rewrite (bind_Return _ _ w (this w) w) by done.
  unfold attached.
  generalize (constructor_options (this w)) as options; intros options.
  destruct w as [[i ev g last key] c pos mc ml fr lg]. norm_world.
  unfold new_MapboxGeocoder, hookEvents, warnDeprecatedOutputs.
  erewrite bind_Return; [|run_M; reflexivity].
  repeat (cbv beta; rewrite ?bind_assoc; erewrite bind_Return;
          [|first [apply when_dw | eapply when_geocoder_on; reflexivity]];
          norm_world).
  unfold addControl, hooked, deprecated. run_M.
  unfold modify. norm_world.
  rewrite ?map_app, <- ?app_assoc.
  repeat match goal with
         | |- context [map GeocoderOn (if ?b then _ else _)] => destruct b
         end; reflexivity.
Qed.

Lemma constructor_options_lookup d key :
  constructor_options d !! key = kept (Obj.assoc key (options_entries d)).
Proof.
  unfold constructor_options, options_literal.
  by rewrite strip_undefined_lookup, literal_lookup.
Qed.

Lemma kept_defined v : kept v ≠ Some JUndefined.
Proof. by destruct v as [[]|]. Qed.

Lemma constructor_options_accessToken d :
  constructor_options d !! "accessToken" =
  kept (Some (js_or (Inputs.accessToken (inputs d)) (MAPBOX_GEOCODER_API_KEY d))).
Proof. by rewrite constructor_options_lookup. Qed.

Lemma constructor_options_marker d :
  constructor_options d !! "marker" = kept (Some (Inputs.marker (inputs d))).
Proof. by rewrite constructor_options_lookup. Qed.

Lemma omap_deprecated {A} (f : effect → option A) ev :
  (∀ c o n, f (DeprecationWarning c o n) = None) →
  omap f (deprecated ev) = [].
Proof.
  intros Hf. unfold deprecated.
  repeat match goal with |- context [if ?b then _ else _] => destruct b end;
    simpl; rewrite ?Hf; reflexivity.
Qed.

Lemma omap_GeocoderOn {A} (f : effect → option A) ts :
  (∀ t, f (GeocoderOn t) = None) → omap f (map GeocoderOn ts) = [].
Proof. intros Hf. induction ts as [|t ts IH]; simpl; by rewrite ?Hf. Qed.

Lemma constructions_attached w :
  constructions (log (attached w)) =
  constructions (log w) ++ [constructor_options (this w)].
Proof.
  unfold constructions, attached; cbn [log].
  rewrite omap_app. f_equal.
  rewrite (omap_app _ [_] _), !omap_app.
  rewrite omap_deprecated, omap_GeocoderOn by done. done.
Qed.

Lemma onMapCreated_constructs w :
  control w = None → constructs w (constructor_options (this w)).
Proof.
  intros Hc. exists (attached w). split; [by apply onMapCreated_free |].
  split; [done | apply constructions_attached].
Qed.

(** ** The double-attachment guard *)

(** C2.  When the slot of the host control already holds a control, the
    subscriber of [mapCreated$] throws before anything else happens: the
    world it leaves is the world it found, so no widget is constructed, no
    listener is registered and the slot is unchanged; the same holds for a
    notification delivered to any number of subscriptions. *)
Theorem occupied_slot_aborts_attachment w c :
  control w = Some c →
  onMapCreated w = Throw "Another control is already set for this control" w
  ∧ ∀ n, times (S n) onMapCreated w =
         Throw "Another control is already set for this control" w.
Proof.
  intros Hc.
  assert (onMapCreated w =
          Throw "Another control is already set for this control" w) as H.
  { unfold onMapCreated. erewrite bind_Return; [|unfold gets; by rewrite Hc].
    reflexivity. }
  split; [exact H |].
  intros n. cbn [times]. by apply bind_Throw.
Qed.

Lemma occupied_slot_aborts_attachment_witness :
  control Sample.occupied = Some 7 ∧
  deliver MapCreated Sample.occupied =
  Throw "Another control is already set for this control" Sample.occupied.
Proof.
  split; [reflexivity |].
  exact (proj2 (occupied_slot_aborts_attachment Sample.occupied 7 eq_refl) 0).
Defined.

(** ** The options handed to the widget *)

(** C3.  The object passed to the constructor of the widget has no
    property whose value is [undefined]: a property of the literal that is
    [undefined] is removed, every other property is passed as written. *)
Theorem constructor_options_have_no_undefined w :
  control w = None →
  ∃ options, constructs w options ∧
    ∀ key,
      options !! key ≠ Some JUndefined ∧
      (Obj.get (options_literal (this w)) key = JUndefined →
       options !! key = None) ∧
      (∀ v, options_literal (this w) !! key = Some v → v ≠ JUndefined →
            options !! key = Some v).
Proof.
  intros Hc. exists (constructor_options (this w)).
  split; [by apply onMapCreated_constructs |].
  intros key. unfold constructor_options.
  rewrite strip_undefined_lookup. unfold Obj.get.
  split; [apply kept_defined |]. split.
  - destruct (options_literal (this w) !! key) as [v|]; simpl; [|done].
    by intros ->.
  - intros v -> Hv. by destruct v.
Qed.

Lemma constructor_options_have_no_undefined_witness :
  control (created (Sample.bound JUndefined (JBool false) JUndefined)
             Sample.nobody JUndefined Sample.top_right) = None ∧
  ∃ options,
    constructs (created (Sample.bound JUndefined (JBool false) JUndefined)
                  Sample.nobody JUndefined Sample.top_right) options ∧
    options !! "countries" = None ∧
    options !! "accessToken" = None ∧
    options !! "zoom" = Some (JNum 12).
Proof.
  split; [reflexivity |].
  destruct (constructor_options_have_no_undefined
              (created (Sample.bound JUndefined (JBool false) JUndefined)
                 Sample.nobody JUndefined Sample.top_right) eq_refl)
    as (options & Hc & Hk).
  exists options. split; [exact Hc |].
  split; [apply (Hk "countries"); vm_compute; reflexivity |].
  split; [apply (Hk "accessToken"); vm_compute; reflexivity |].
  apply (Hk "zoom"); [vm_compute; reflexivity | discriminate].
Defined.

(** C7 (amended).  The [accessToken] option is the per-instance credential
    when one is given and the injected default when only that is given.
    When neither is given the key is absent if the default reaches the
    directive as [undefined]; if it reaches it as [null], which is what the
    injector supplies for the optional token without provider, the option
    is passed as [null]. *)
Theorem credential_resolution w :
  control w = None →
  ∃ options, constructs w options ∧
    (∀ a, Inputs.accessToken (inputs (this w)) = a → truthy a = true →
          options !! "accessToken" = Some a) ∧
    (∀ b, Inputs.accessToken (inputs (this w)) = JUndefined →
          MAPBOX_GEOCODER_API_KEY (this w) = JStr b →
          options !! "accessToken" = Some (JStr b)) ∧
    (Inputs.accessToken (inputs (this w)) = JUndefined →
     MAPBOX_GEOCODER_API_KEY (this w) = JUndefined →
     options !! "accessToken" = None) ∧
    (Inputs.accessToken (inputs (this w)) = JUndefined →
     MAPBOX_GEOCODER_API_KEY (this w) = JNull →
     options !! "accessToken" = Some JNull).
Proof.
  intros Hc. exists (constructor_options (this w)).
  split; [by apply onMapCreated_constructs |].
  rewrite constructor_options_accessToken. unfold js_or. repeat split.
  - intros a -> Ha. rewrite Ha. by destruct a.
  - by intros b -> ->.
  - by intros -> ->.
  - by intros -> ->.
Qed.

Lemma credential_resolution_witness :
  (∃ options,
     constructs (created (Sample.bound (JStr "A") (JBool false) JUndefined)
                   Sample.nobody (JStr "B") Sample.top_right) options ∧
     options !! "accessToken" = Some (JStr "A")) ∧
  (∃ options,
     constructs (created (Sample.bound JUndefined (JBool false) JUndefined)
                   Sample.nobody (JStr "B") Sample.top_right) options ∧
     options !! "accessToken" = Some (JStr "B")) ∧
  (∃ options,
     constructs (created (Sample.bound JUndefined (JBool false) JUndefined)
                   Sample.nobody JUndefined Sample.top_right) options ∧
     options !! "accessToken" = None) ∧
  (∃ options,
     constructs (created (Sample.bound JUndefined (JBool false) JUndefined)
                   Sample.nobody JNull Sample.top_right) options ∧
     options !! "accessToken" = Some JNull).
Proof.
  split; [|split; [|split]].
  - destruct (credential_resolution
                (created (Sample.bound (JStr "A") (JBool false) JUndefined)
                   Sample.nobody (JStr "B") Sample.top_right) eq_refl)
      as (options & Hc & Ha & _).
    exists options. split; [exact Hc | apply Ha; reflexivity].
  - destruct (credential_resolution
                (created (Sample.bound JUndefined (JBool false) JUndefined)
                   Sample.nobody (JStr "B") Sample.top_right) eq_refl)
      as (options & Hc & _ & Hb & _).
    exists options. split; [exact Hc | apply Hb; reflexivity].
  - destruct (credential_resolution
                (created (Sample.bound JUndefined (JBool false) JUndefined)
                   Sample.nobody JUndefined Sample.top_right) eq_refl)
      as (options & Hc & _ & _ & Hn & _).
    exists options. split; [exact Hc | apply Hn; reflexivity].
  - destruct (credential_resolution
                (created (Sample.bound JUndefined (JBool false) JUndefined)
                   Sample.nobody JNull Sample.top_right) eq_refl)
      as (options & Hc & _ & _ & _ & Hn).
    exists options. split; [exact Hc | apply Hn; reflexivity].
Defined.

(** C7 as stated fails: with no per-instance credential and no provider
    for the default, the injector hands over [null], and the options
    carry [accessToken: null]; the key is not absent. *)
Lemma missing_default_credential_is_passed_as_null :
  ∃ options,
    constructs (created (Sample.bound JUndefined (JBool false) JUndefined)
                  Sample.nobody JNull Sample.top_right) options ∧
    options !! "accessToken" = Some JNull ∧
    options !! "accessToken" ≠ None.
Proof.
  exists (constructor_options
            (this (created (Sample.bound JUndefined (JBool false) JUndefined)
                     Sample.nobody JNull Sample.top_right))).
  split; [by apply onMapCreated_constructs |].
  rewrite constructor_options_accessToken. by split.
Qed.

(** C9 (amended).  The options passed to the widget contain the key
    [marker], with the value of the input, exactly when the [marker] input
    is not [undefined].  The class initialises it to [false], so a
    directive without [marker] binding passes [marker: false]; a [marker]
    bound to [undefined] is stripped like every other key. *)
Theorem marker_is_passed_unless_undefined w :
  control w = None →
  Inputs.marker Inputs.initial = JBool false ∧
  ∃ options, constructs w options ∧
    options !! "marker" =
      match Inputs.marker (inputs (this w)) with
      | JUndefined => None
      | v => Some v
      end.
Proof.
  intros Hc. split; [reflexivity |].
  exists (constructor_options (this w)).
  split; [by apply onMapCreated_constructs |].
  rewrite constructor_options_marker.
  by destruct (Inputs.marker (inputs (this w))).
Qed.

Lemma marker_is_passed_unless_undefined_witness :
  ∃ options,
    constructs (created Inputs.initial Sample.nobody JUndefined Sample.top_right)
      options ∧
    options !! "marker" = Some (JBool false).
Proof.
  exact (proj2 (marker_is_passed_unless_undefined
                  (created Inputs.initial Sample.nobody JUndefined
                     Sample.top_right) eq_refl)).
Defined.

(** C9 as stated fails: a [marker] bound to [undefined] does not survive
    the stripping, and the widget receives no [marker] option. *)
Lemma marker_bound_to_undefined_is_stripped :
  ∃ options,
    constructs (created (Sample.bound JUndefined JUndefined JUndefined)
                  Sample.nobody JUndefined Sample.top_right) options ∧
    options !! "marker" = None.
Proof.
  exists (constructor_options
            (this (created (Sample.bound JUndefined JUndefined JUndefined)
                     Sample.nobody JUndefined Sample.top_right))).
  split; [by apply onMapCreated_constructs |].
  by rewrite constructor_options_marker.
Qed.

(** C10.  A per-instance [accessToken] that is falsy, the empty string
    included, gives way to the injected default credential. *)
Theorem falsy_credential_falls_back w :
  control w = None →
  truthy (Inputs.accessToken (inputs (this w))) = false →
  MAPBOX_GEOCODER_API_KEY (this w) ≠ JUndefined →
  ∃ options, constructs w options ∧
    options !! "accessToken" = Some (MAPBOX_GEOCODER_API_KEY (this w)).
Proof.
  intros Hc Ha Hk. exists (constructor_options (this w)).
  split; [by apply onMapCreated_constructs |].
  rewrite constructor_options_accessToken. unfold js_or. rewrite Ha.
  by destruct (MAPBOX_GEOCODER_API_KEY (this w)).
Qed.

Lemma falsy_credential_falls_back_witness :
  Inputs.accessToken (Sample.bound (JStr "") (JBool false) JUndefined) = JStr "" ∧
  ∃ options,
    constructs (created (Sample.bound (JStr "") (JBool false) JUndefined)
                  Sample.nobody (JStr "B") Sample.top_right) options ∧
    options !! "accessToken" = Some (JStr "B").
Proof.
  split; [reflexivity |].
  apply (falsy_credential_falls_back
           (created (Sample.bound (JStr "") (JBool false) JUndefined)
              Sample.nobody (JStr "B") Sample.top_right)).
  - reflexivity.
  - reflexivity.
  - discriminate.
Defined.

(** X19.  The stripping looks for [undefined] only: a default credential
    that is [null], which is what the injector hands over for an optional
    token without provider, is passed on as [null]. *)
Remark null_default_credential_is_passed w :
  control w = None →
  Inputs.accessToken (inputs (this w)) = JUndefined →
  MAPBOX_GEOCODER_API_KEY (this w) = JNull →
  ∃ options, constructs w options ∧ options !! "accessToken" = Some JNull.
Proof.
  intros Hc Ha Hk. exists (constructor_options (this w)).
  split; [by apply onMapCreated_constructs |].
  rewrite constructor_options_accessToken. by rewrite Ha, Hk.
Qed.

(** ** Registration of the listeners *)

Lemma hooked_filter ev : hooked ev = List.filter (has_listeners ev) event_types.
Proof.
  unfold hooked, has_listeners, outward, event_types. simpl.
  destruct (observed (GeocoderEvent.results ev)),
    (observed (GeocoderEvent.geocoderResults ev)),
    (observed (GeocoderEvent.result ev)),
    (observed (GeocoderEvent.geocoderResult ev)),
    (observed (GeocoderEvent.error ev)),
    (observed (GeocoderEvent.geocoderError ev)),
    (observed (GeocoderEvent.loading ev)),
    (observed (GeocoderEvent.clear ev)); reflexivity.
Qed.

Lemma registrations_On ts : registrations (map GeocoderOn ts) = ts.
Proof. induction ts as [|t ts IH]; simpl; by rewrite ?IH. Qed.

Lemma registrations_attached w :
  registrations (log (attached w)) =
  registrations (log w) ++ hooked (outputs (this w)).
Proof.
  unfold attached; cbn [log]. unfold registrations at 1.
  rewrite !omap_app. fold registrations.
  rewrite omap_deprecated, registrations_On by done.
  cbn. by rewrite app_nil_r.
Qed.

(** C8 (amended).  The attachment calls [on] of the widget once for each
    of the five event types that has a subscriber on at least one of its
    outward channels, and for no other: the number of registrations is the
    number of event types with listeners, and an event type whose channels
    have no subscriber gets no listener. *)
Theorem forwarders_follow_listeners w :
  control w = None →
  ∃ w' types,
    onMapCreated w = Return tt w' ∧
    registrations (log w') = registrations (log w) ++ types ∧
    g_listeners <$> geocoder (this w') = Some types ∧
    types = List.filter (has_listeners (outputs (this w))) event_types ∧
    length types = event_types_with_listeners (outputs (this w)) ∧
    ∀ type, has_listeners (outputs (this w)) type = false → type ∉ types.
Proof.
  intros Hc. exists (attached w), (hooked (outputs (this w))).
  split; [by apply onMapCreated_free |].
  split; [apply registrations_attached |].
  split; [done |].
  rewrite hooked_filter.
  split; [done |]. split; [done |].
  intros type Hn Hin%list_elem_of_In%filter_In. destruct Hin; congruence.
Qed.

Lemma forwarders_follow_listeners_witness :
  ∃ w' types,
    onMapCreated (created Inputs.initial Sample.both_results JUndefined
                    Sample.top_right) = Return tt w' ∧
    registrations (log w') = [] ++ types ∧
    types = ["results"; "clear"] ∧
    length types = 2.
Proof.
  destruct (forwarders_follow_listeners
              (created Inputs.initial Sample.both_results JUndefined
                 Sample.top_right) eq_refl)
    as (w' & types & Hr & Hl & _ & Ht & Hn & _).
  exists w', types. split; [exact Hr |]. split; [exact Hl |].
  split; [exact Ht | exact Hn].
Defined.

(** C8 as stated fails: with subscribers on [results], on
    [geocoderResults] and on [clear], three channels have listeners and
    [on] is called twice. *)
Lemma paired_channels_share_one_registration :
  ∃ w', onMapCreated (created Inputs.initial Sample.both_results JUndefined
                        Sample.top_right) = Return tt w' ∧
        registrations (log w') = ["results"; "clear"] ∧
        channels_with_listeners Sample.both_results = 3 ∧
        length (registrations (log w')) ≠
          channels_with_listeners Sample.both_results.
Proof.
  exists (attached (created Inputs.initial Sample.both_results JUndefined
                      Sample.top_right)).
  split; [by apply onMapCreated_free |].
  rewrite registrations_attached.
  split; [reflexivity |]. split; [reflexivity | discriminate].
Qed.

(** The two counts agree as long as no event type has subscribers on both
    its current and its deprecated channel. *)
Remark unpaired_channels_count_as_event_types ev :
  observed (GeocoderEvent.results ev)
  && observed (GeocoderEvent.geocoderResults ev) = false →
  observed (GeocoderEvent.result ev)
  && observed (GeocoderEvent.geocoderResult ev) = false →
  observed (GeocoderEvent.error ev)
  && observed (GeocoderEvent.geocoderError ev) = false →
  event_types_with_listeners ev = channels_with_listeners ev.
Proof.
  unfold event_types_with_listeners, channels_with_listeners, has_listeners,
    outward, outward_channels, event_types. simpl.
  destruct (observed (GeocoderEvent.results ev)),
    (observed (GeocoderEvent.geocoderResults ev)),
    (observed (GeocoderEvent.result ev)),
    (observed (GeocoderEvent.geocoderResult ev)),
    (observed (GeocoderEvent.error ev)),
    (observed (GeocoderEvent.geocoderError ev)),
    (observed (GeocoderEvent.loading ev)),
    (observed (GeocoderEvent.clear ev)); simpl; congruence.
Qed.

(** ** From creation to attachment *)

Lemma deliver_AfterContentInit_created i ev key pos :
  deliver AfterContentInit (created i ev key pos) =
  Return tt (subscribed i ev key pos).
Proof.
  unfold deliver, ngAfterContentInit, subscribed. run_M.
  by destruct (truthy (Inputs.searchInput i)).
Qed.

Lemma deliver_MapCreated_subscribed i ev key pos :
  deliver MapCreated (subscribed i ev key pos) = Return tt (wired i ev key pos).
Proof.
  unfold deliver.
  rewrite (bind_Return _ _ _ 1 (subscribed i ev key pos)) by reflexivity.
  cbn [times].
  erewrite bind_Return; [|by apply onMapCreated_free].
  reflexivity.
Qed.

Lemma attach_run i ev key pos ss :
  run (AfterContentInit :: MapCreated :: ss) (created i ev key pos) =
  run ss (wired i ev key pos).
Proof.
  cbn [run].
  erewrite bind_Return; [|apply deliver_AfterContentInit_created].
  erewrite bind_Return; [|apply deliver_MapCreated_subscribed].
  reflexivity.
Qed.

Lemma flat_map_deprecated {A} (f : effect → list A) ev :
  (∀ c o n, f (DeprecationWarning c o n) = []) →
  flat_map f (deprecated ev) = [].
Proof.
  intros Hf. unfold deprecated.
  repeat match goal with |- context [if ?b then _ else _] => destruct b end;
    simpl; rewrite ?Hf; reflexivity.
Qed.

Lemma flat_map_GeocoderOn {A} (f : effect → list A) ts :
  (∀ t, f (GeocoderOn t) = []) → flat_map f (map GeocoderOn ts) = [].
Proof. intros Hf. induction ts as [|t ts IH]; simpl; by rewrite ?Hf. Qed.

Lemma emitted_attached channel w :
  emitted channel (log (attached w)) = emitted channel (log w).
Proof.
  unfold emitted, attached; cbn [log].
  rewrite !flat_map_app.
  rewrite flat_map_deprecated, flat_map_GeocoderOn by done.
  cbn. by rewrite app_nil_r.
Qed.

Lemma queries_attached w : queries (log (attached w)) = queries (log w).
Proof.
  unfold queries, attached; cbn [log].
  rewrite !omap_app.
  rewrite omap_deprecated, omap_GeocoderOn by done.
  cbn. by rewrite app_nil_r.
Qed.

(** ** The duplicate-result workaround *)

Lemma listeners_for_result_hooked ev r opts :
  observed (GeocoderEvent.geocoderResult ev)
  || observed (GeocoderEvent.result ev) = true →
  listeners_for "result"
    {| g_ref := r; g_options := opts; g_listeners := hooked ev |} = 1.
Proof.
  intros Hb. unfold listeners_for, hooked; cbn [g_listeners]. rewrite Hb.
  repeat match goal with |- context [if ?b then _ else _] => destruct b end;
    reflexivity.
Qed.

Lemma deliver_result r w g :
  geocoder (this w) = Some g → listeners_for "result" g = 1 →
  ∃ w', deliver (Widget (EvResult r)) w = Return tt w' ∧
        geocoder (this w') = Some g ∧
        lastResultId (this w') = id r ∧
        log w' = log w ++
                 map result_emission (forwarded (lastResultId (this w)) [r]).
Proof.
  intros Hg Hn. unfold deliver.
  rewrite (bind_Return _ _ _ (this w) w) by reflexivity.
  rewrite Hg. cbn [event_type]. rewrite Hn. cbn [times forwarded].
  unfold listener, strict_ne, strict_eq, zone_run. run_M.
  destruct w as [[i ev g' last key] c pos mc ml fr lg]; simpl in *.
  case_bool_decide as Hlast; simpl.
  - subst last. rewrite decide_True by done.
    eexists; split; [reflexivity |]. simpl. rewrite app_nil_r. auto.
  - rewrite decide_False by congruence.
    eexists; split; [reflexivity |]. simpl. auto.
Qed.

Lemma forwarded_cons last r rs :
  forwarded last (r :: rs) = forwarded last [r] ++ forwarded (id r) rs.
Proof.
  simpl. destruct (decide (id r = last)) as [->|]; reflexivity.
Qed.

Lemma run_results rs : ∀ w g,
  geocoder (this w) = Some g → listeners_for "result" g = 1 →
  ∃ w', run (map (Widget ∘ EvResult) rs) w = Return tt w' ∧
        log w' = log w ++
                 map result_emission (forwarded (lastResultId (this w)) rs).
Proof.
  induction rs as [|r rs IH]; intros w g Hg Hn.
  - exists w. split; [reflexivity |]. simpl. by rewrite app_nil_r.
  - destruct (deliver_result r w g Hg Hn) as (w1 & Hd & Hg1 & Hl1 & Hlog1).
    destruct (IH w1 g Hg1 Hn) as (w2 & Hr & Hlog2).
    exists w2. split.
    + cbn [map run compose]. erewrite bind_Return; [|exact Hd]. exact Hr.
    + rewrite Hlog2, Hlog1, Hl1, (forwarded_cons _ r rs), map_app, app_assoc.
      done.
Qed.

Lemma emitted_app channel l1 l2 :
  emitted channel (l1 ++ l2) = emitted channel l1 ++ emitted channel l2.
Proof. apply flat_map_app. Qed.

Lemma emitted_geocoderResult rs :
  emitted "geocoderResult" (map result_emission rs) = map EvResult rs.
Proof. induction rs as [|r rs IH]; simpl; by rewrite ?IH. Qed.

Lemma emitted_result rs :
  emitted "result" (map result_emission rs) = map EvResult rs.
Proof. induction rs as [|r rs IH]; simpl; by rewrite ?IH. Qed.

(** The log of a directive that is created, attached and then receives a
    sequence of [result] events of the widget. *)
Lemma attach_then_results i ev key pos rs :
  observed (GeocoderEvent.geocoderResult ev)
  || observed (GeocoderEvent.result ev) = true →
  ∃ w', run (AfterContentInit :: MapCreated :: map (Widget ∘ EvResult) rs)
            (created i ev key pos) = Return tt w' ∧
        log w' = log (wired i ev key pos) ++
                 map result_emission (forwarded JUndefined rs).
Proof.
  intros Hb. rewrite attach_run.
  eapply (run_results rs (wired i ev key pos)); [reflexivity |].
  by apply listeners_for_result_hooked.
Qed.

Lemma emitted_wired channel i ev key pos :
  emitted channel (log (wired i ev key pos)) = [].
Proof. unfold wired. by rewrite emitted_attached. Qed.

(** C1 (amended).  After attachment with a subscriber on [result] or
    [geocoderResult], a [result] event of the widget is forwarded, once on
    each of the two channels, exactly when its id differs from the id of
    the last forwarded result ([undefined] at the start): an event with id
    X is emitted once, an immediate repeat of X is dropped, a following
    event with another id Y is emitted once; a later event with id X is
    then emitted again. *)
Theorem result_forwarding_drops_immediate_repeats i ev key pos rs :
  observed (GeocoderEvent.geocoderResult ev)
  || observed (GeocoderEvent.result ev) = true →
  (∃ w', run (AfterContentInit :: MapCreated :: map (Widget ∘ EvResult) rs)
             (created i ev key pos) = Return tt w' ∧
         emitted "geocoderResult" (log w') =
           map EvResult (forwarded JUndefined rs) ∧
         emitted "result" (log w') =
           map EvResult (forwarded JUndefined rs)) ∧
  (∀ x x' y, id x ≠ JUndefined → id x' = id x → id y ≠ id x →
             forwarded JUndefined [x] = [x] ∧
             forwarded JUndefined [x; x'] = [x] ∧
             forwarded JUndefined [x; x'; y] = [x; y] ∧
             forwarded JUndefined [x; y; x'] = [x; y; x']).
Proof.
  intros Hb. split.
  - destruct (attach_then_results i ev key pos rs Hb) as (w' & Hr & Hlog).
    exists w'. split; [exact Hr |].
    rewrite Hlog, !emitted_app, !emitted_wired.
    by rewrite emitted_geocoderResult, emitted_result.
  - intros x x' y Hx Hx' Hy. simpl. rewrite Hx'.
    repeat split; repeat case_decide; congruence.
Qed.

Lemma result_forwarding_drops_immediate_repeats_witness :
  ∃ w', run (AfterContentInit :: MapCreated ::
             map (Widget ∘ EvResult)
               [Sample.result_X; Sample.result_X'; Sample.result_Y])
            (created Inputs.initial Sample.legacy_result JUndefined
               Sample.top_right) = Return tt w' ∧
        emitted "result" (log w') =
          [EvResult Sample.result_X; EvResult Sample.result_Y].
Proof.
  destruct (result_forwarding_drops_immediate_repeats
              Inputs.initial Sample.legacy_result JUndefined Sample.top_right
              [Sample.result_X; Sample.result_X'; Sample.result_Y] eq_refl)
    as ((w' & Hr & _ & He) & _).
  exists w'. split; [exact Hr | exact He].
Defined.

(** C1 as stated fails: with X, then Y, then X again, the second X is not
    the first occurrence of its id, and it is forwarded all the same. *)
Lemma repeat_after_another_result_is_forwarded :
  ∃ w', run (AfterContentInit :: MapCreated ::
             map (Widget ∘ EvResult)
               [Sample.result_X; Sample.result_Y; Sample.result_X'])
            (created Inputs.initial Sample.legacy_result JUndefined
               Sample.top_right) = Return tt w' ∧
        emitted "result" (log w') =
          [EvResult Sample.result_X; EvResult Sample.result_Y;
           EvResult Sample.result_X'] ∧
        emitted "result" (log w') ≠
          map EvResult
            (first_occurrences []
               [Sample.result_X; Sample.result_Y; Sample.result_X']).
Proof.
  destruct (attach_then_results
              Inputs.initial Sample.legacy_result JUndefined Sample.top_right
              [Sample.result_X; Sample.result_Y; Sample.result_X'] eq_refl)
    as (w' & Hr & Hlog).
  exists w'. split; [exact Hr |].
  rewrite Hlog, emitted_app, emitted_wired.
  split; [reflexivity | discriminate].
Qed.

(** ** The deferred initial query *)

Lemma deliver_MapLoaded_once w g :
  geocoder (this w) = Some g → mapLoaded_subscriptions w = 1 →
  deliver MapLoaded w =
  Return tt
    (with_log (log w ++ [GeocoderQuery (Inputs.searchInput (inputs (this w)))])
       w).
Proof.
  intros Hg Hn. unfold deliver.
  rewrite (bind_Return _ _ _ 1 w) by (unfold gets; by rewrite Hn).
  cbn [times]. unfold onMapLoaded, geocoder_query, on_geocoder. run_M.
  by rewrite Hg.
Qed.

Lemma run_MapLoaded n : ∀ w g,
  geocoder (this w) = Some g → mapLoaded_subscriptions w = 1 →
  ∃ w', run (replicate n MapLoaded) w = Return tt w' ∧
        log w' = log w ++
                 replicate n (GeocoderQuery (Inputs.searchInput (inputs (this w)))).
Proof.
  induction n as [|n IH]; intros w g Hg Hn.
  - exists w. split; [reflexivity |]. simpl. by rewrite app_nil_r.
  - pose proof (deliver_MapLoaded_once w g Hg Hn) as Hd.
    destruct (IH (with_log
                    (log w ++
                     [GeocoderQuery (Inputs.searchInput (inputs (this w)))]) w)
                 g Hg Hn) as (w' & Hr & Hlog).
    exists w'. split.
    + cbn [replicate run]. erewrite bind_Return; [|exact Hd]. exact Hr.
    + rewrite Hlog. cbn [with_log log this replicate].
      by rewrite <- app_assoc.
Qed.

Lemma queries_replicate n v : queries (replicate n (GeocoderQuery v)) = replicate n v.
Proof. induction n as [|n IH]; simpl; by rewrite ?IH. Qed.

(** The log of a directive created with a [searchInput], attached, and
    then notified [n] times that the map has loaded. *)
Lemma attach_then_loaded i ev key pos n :
  truthy (Inputs.searchInput i) = true →
  ∃ w', run (AfterContentInit :: MapCreated :: replicate n MapLoaded)
            (created i ev key pos) = Return tt w' ∧
        queries (log w') = replicate n (Inputs.searchInput i).
Proof.
  intros Hs. rewrite attach_run.
  destruct (run_MapLoaded n (wired i ev key pos) _ eq_refl) as (w' & Hr & Hlog).
  { unfold wired, subscribed. cbn [attached mapLoaded_subscriptions
      with_subscriptions]. by rewrite Hs. }
  exists w'. split; [exact Hr |].
  rewrite Hlog. unfold queries at 1. rewrite omap_app. fold queries.
  unfold wired at 1. rewrite queries_attached, queries_replicate. done.
Qed.

(** C4 as stated fails: when [mapLoaded$] fires twice the widget is
    queried twice, not once. *)
Lemma map_loaded_twice_queries_twice :
  ∃ w', run [AfterContentInit; MapCreated; MapLoaded; MapLoaded]
            (created (Sample.bound JUndefined (JBool false) (JStr "Paris"))
               Sample.nobody (JStr "B") Sample.top_right) = Return tt w' ∧
        queries (log w') = [JStr "Paris"; JStr "Paris"] ∧
        length (queries (log w')) ≠ 1.
Proof.
  destruct (attach_then_loaded
              (Sample.bound JUndefined (JBool false) (JStr "Paris"))
              Sample.nobody (JStr "B") Sample.top_right 2 eq_refl)
    as (w' & Hr & Hq).
  exists w'. split; [exact Hr |]. rewrite Hq. split; [reflexivity | discriminate].
Qed.

(** The subscription to [mapLoaded$] is decided when
    [ngAfterContentInit] runs: a [searchInput] that is bound later, even
    before the map is created, is not queried when the map has loaded. *)
Remark late_search_input_is_not_queried_on_load :
  ∃ w', run [ AfterContentInit;
              Changes (Sample.bound JUndefined (JBool false) (JStr "Paris"))
                (Sample.typed (JStr "Paris") true);
              MapCreated; MapLoaded ]
            (created Inputs.initial Sample.nobody (JStr "B") Sample.top_right)
        = Return tt w' ∧
        queries (log w') = [].
Proof.
  eexists. split; [vm_compute; reflexivity |]. vm_compute. reflexivity.
Qed.

(** ** Reacting to changes *)

Lemma ngOnChanges_attached w g changes :
  geocoder (this w) = Some g →
  ngOnChanges changes w =
  Return tt (with_log (log w ++ change_effects (this w) changes) w).
Proof.
  intros Hg. unfold ngOnChanges, change_effects, proximity_pushed,
    geocoder_setProximity, geocoder_query, on_geocoder, isFirstChange.
  run_M. rewrite Hg.
  destruct w as [d c pos mc ml fr lg]; simpl in *.
  destruct (changes !! "proximity") as [p|]; [destruct (firstChange p) |];
    simpl; rewrite ?Hg; destruct (changes !! "searchInput"); simpl;
    rewrite ?Hg; unfold modify, with_log; simpl;
    rewrite <- ?app_assoc, ?app_nil_r; reflexivity.
Qed.

Lemma ngOnChanges_detached w changes :
  geocoder (this w) = None → ngOnChanges changes w = Return tt w.
Proof. intros Hg. unfold ngOnChanges. run_M. by rewrite Hg. Qed.

Lemma deliver_Changes w g now changes :
  geocoder (this w) = Some g →
  deliver (Changes now changes) w =
  Return tt
    (with_log (log w ++ change_effects (with_inputs now (this w)) changes)
       (with_this (with_inputs now (this w)) w)).
Proof.
  intros Hg. unfold deliver.
  erewrite bind_Return; [|reflexivity].
  by erewrite ngOnChanges_attached.
Qed.

Lemma proximities_change_effects d changes :
  proximities (change_effects d changes) = proximity_pushed changes.
Proof.
  unfold change_effects, proximity_pushed.
  destruct (changes !! "proximity") as [p|]; [destruct (firstChange p) |];
    destruct (changes !! "searchInput"); reflexivity.
Qed.

Lemma queries_change_effects d changes :
  queries (change_effects d changes) =
  match changes !! "searchInput" with
  | Some _ => [Inputs.searchInput (inputs d)]
  | None => []
  end.
Proof.
  unfold change_effects, proximity_pushed.
  destruct (changes !! "proximity") as [p|]; [destruct (firstChange p) |];
    destruct (changes !! "searchInput"); reflexivity.
Qed.

Lemma proximity_pushed_sequence ns :
  flat_map (λ n, proximity_pushed n.2) ns =
  map currentValue
    (List.filter (λ c, negb (firstChange c)) (proximity_changes ns)).
Proof.
  unfold proximity_changes.
  induction ns as [|[now changes] ns IH]; [reflexivity |].
  change ((now, changes) :: ns) with ([(now, changes)] ++ ns).
  rewrite flat_map_app, omap_app, List.filter_app, map_app, IH. f_equal.
  unfold proximity_pushed; simpl.
  destruct (changes !! "proximity") as [c|]; [|reflexivity].
  simpl. by destruct (firstChange c).
Qed.

Lemma filter_later_changes cs :
  Forall (λ c', firstChange c' = false) cs →
  List.filter (λ c, negb (firstChange c)) cs = cs.
Proof.
  induction 1 as [|c cs Hc _ IH]; [reflexivity |].
  cbn [List.filter]. by rewrite Hc, IH.
Qed.

Lemma run_notifications ns : ∀ w g,
  geocoder (this w) = Some g →
  ∃ w', run (map notification ns) w = Return tt w' ∧
        proximities (log w') =
          proximities (log w) ++ flat_map (λ n, proximity_pushed n.2) ns.
Proof.
  induction ns as [|[now changes] ns IH]; intros w g Hg.
  - exists w. split; [reflexivity |]. simpl. by rewrite app_nil_r.
  - pose proof (deliver_Changes w g now changes Hg) as Hd.
    destruct (IH (with_log
                    (log w ++ change_effects (with_inputs now (this w)) changes)
                    (with_this (with_inputs now (this w)) w)) g Hg)
      as (w' & Hr & Hp).
    exists w'. split.
    + cbn [map run notification fst snd].
      erewrite bind_Return; [|exact Hd]. exact Hr.
    + rewrite Hp. cbn [with_log log flat_map snd].
      unfold proximities at 1. rewrite omap_app. fold proximities.
      rewrite proximities_change_effects. by rewrite <- app_assoc.
Qed.

(** C5 (amended).  In any sequence of change notifications that reaches
    an attached directive, a change of [proximity] that reports
    [isFirstChange()] pushes nothing to the widget, and every change of
    [proximity] that does not report it calls [setProximity] with its
    [currentValue], unmodified and in order, wherever it stands in the
    sequence.  When the first change of the sequence is the one reported
    as first, all changes but that one are pushed. *)
Theorem proximity_changes_after_the_first_are_pushed ns w g :
  geocoder (this w) = Some g →
  ∃ w', run (map notification ns) w = Return tt w' ∧
        proximities (log w') =
          proximities (log w) ++
          map currentValue
            (List.filter (λ c, negb (firstChange c)) (proximity_changes ns)) ∧
        (first_is_flagged (proximity_changes ns) →
         proximities (log w') =
           proximities (log w) ++
           map currentValue (tail (proximity_changes ns))).
Proof.
  intros Hg. destruct (run_notifications ns w g Hg) as (w' & Hr & Hp).
  exists w'. split; [exact Hr |].
  rewrite Hp, proximity_pushed_sequence. split; [reflexivity |].
  destruct (proximity_changes ns) as [|c cs]; [reflexivity |].
  intros [Hc Hcs]. cbn [List.filter tail]. rewrite Hc. cbn [negb].
  by rewrite filter_later_changes.
Qed.

Lemma proximity_changes_after_the_first_are_pushed_witness :
  ∃ w', run (map notification
               [ (Inputs.initial, Sample.moved (JRef 10) true);
                 (Inputs.initial, Sample.moved (JRef 11) false);
                 (Inputs.initial, Sample.typed (JStr "Oslo") false);
                 (Inputs.initial, Sample.moved (JRef 12) false) ])
            (wired Inputs.initial Sample.nobody JUndefined Sample.top_right)
        = Return tt w' ∧
        proximities (log w') =
          proximities
            (log (wired Inputs.initial Sample.nobody JUndefined
                    Sample.top_right)) ++ [JRef 11; JRef 12].
Proof.
  destruct (proximity_changes_after_the_first_are_pushed
              [ (Inputs.initial, Sample.moved (JRef 10) true);
                (Inputs.initial, Sample.moved (JRef 11) false);
                (Inputs.initial, Sample.typed (JStr "Oslo") false);
                (Inputs.initial, Sample.moved (JRef 12) false) ]
              (wired Inputs.initial Sample.nobody JUndefined Sample.top_right)
              _ eq_refl)
    as (w' & Hr & _ & Hp).
  exists w'. split; [exact Hr |].
  apply Hp. vm_compute. repeat constructor.
Defined.

(** C5 as stated fails: the very first change notification after the
    attachment that alters [proximity] is pushed to the widget when the
    change does not report [isFirstChange()], as for an input that was
    already bound before the map was created. *)
Lemma unflagged_first_proximity_change_is_pushed :
  ∃ w', run [ AfterContentInit; MapCreated;
              Changes Inputs.initial (Sample.moved (JRef 10) false) ]
            (created Inputs.initial Sample.nobody JUndefined Sample.top_right)
        = Return tt w' ∧
        proximities (log w') = [JRef 10] ∧
        proximities (log w') ≠ [].
Proof.
  rewrite attach_run. eexists. split.
  - cbn [run]. erewrite bind_Return; [reflexivity |].
    by eapply deliver_Changes.
  - cbn [with_log log]. unfold proximities. rewrite omap_app.
    fold (proximities
            (log (wired Inputs.initial Sample.nobody JUndefined
                    Sample.top_right))).
    assert (proximities
              (log (wired Inputs.initial Sample.nobody JUndefined
                      Sample.top_right)) = []) as ->.
    { unfold proximities, wired, subscribed, attached; cbn [log].
      rewrite !omap_app.
      by rewrite omap_deprecated, omap_GeocoderOn by done. }
    split; [reflexivity | discriminate].
Qed.

(** C6.  A change notification that carries a change of [searchInput]
    makes the attached directive query the widget with the new value,
    whether or not the change is the first one of that input. *)
Theorem search_input_change_is_always_queried w g now changes c :
  geocoder (this w) = Some g →
  changes !! "searchInput" = Some c →
  Inputs.searchInput now = currentValue c →
  ∃ w', deliver (Changes now changes) w = Return tt w' ∧
        queries (log w') = queries (log w) ++ [currentValue c].
Proof.
  intros Hg Hc Hnow. eexists. split; [by eapply deliver_Changes |].
  cbn [with_log log]. unfold queries at 1. rewrite omap_app. fold queries.
  rewrite queries_change_effects, Hc. cbn [with_inputs inputs].
  by rewrite Hnow.
Qed.

Lemma search_input_change_is_always_queried_witness :
  firstChange
    {| previousValue := JUndefined; currentValue := JStr "Oslo";
       firstChange := true |} = true ∧
  ∃ w', deliver
          (Changes (Sample.bound JUndefined (JBool false) (JStr "Oslo"))
             (Sample.typed (JStr "Oslo") true))
          (wired Inputs.initial Sample.nobody JUndefined Sample.top_right)
        = Return tt w' ∧
        queries (log w') =
          queries
            (log (wired Inputs.initial Sample.nobody JUndefined
                    Sample.top_right)) ++ [JStr "Oslo"].
Proof.
  split; [reflexivity |].
  eapply (search_input_change_is_always_queried
           (wired Inputs.initial Sample.nobody JUndefined Sample.top_right)
           _ (Sample.bound JUndefined (JBool false) (JStr "Oslo"))
           (Sample.typed (JStr "Oslo") true)
           {| previousValue := JUndefined; currentValue := JStr "Oslo";
              firstChange := true |}).
  - reflexivity.
  - vm_compute. reflexivity.
  - reflexivity.
Defined.

(** * Further properties of the directive *)

(** ** The stripping loop *)

(** X1.  The loop of [ngAfterContentInit] that deletes keys while it walks
    the list of keys computes the filter of the object: the properties
    whose value is not [undefined], each with its value.  Stripping
    again changes nothing. *)
Theorem strip_undefined_is_the_filter (o : gmap string jsval) :
  strip_undefined o = filter (λ kv, kv.2 ≠ JUndefined) o ∧
  strip_undefined (strip_undefined o) = strip_undefined o.
Proof.
  split.
  - apply map_eq. intros k. apply option_eq. intros v.
    rewrite map_lookup_filter_Some, strip_undefined_lookup. simpl.
    destruct (o !! k) as [x|]; simpl; [|split; [done | by intros [? _]]].
    split.
    + intros H. destruct x; simplify_eq; done.
    + intros [H Hne]. simplify_eq. by destruct v.
  - apply map_eq. intros k. by rewrite !strip_undefined_lookup, kept_idemp.
Qed.

(** ** The keys of the options *)

Lemma assoc_outside key l : key ∉ l.*1 → Obj.assoc key l = None.
Proof.
  induction l as [|[k v] l IH]; [done |].
  intros Hk. cbn [Obj.assoc]. rewrite decide_False.
  - apply IH. intros Hin. apply Hk. by apply elem_of_cons; right.
  - intros ->. apply Hk. by apply elem_of_cons; left.
Qed.

(** X2.  The object handed to the widget has no key but the fifteen of
    the literal; [searchInput] is never one of them. *)
Theorem constructor_options_keys d :
  (∀ key, is_Some (constructor_options d !! key) → key ∈ option_names) ∧
  constructor_options d !! "searchInput" = None.
Proof.
  assert (∀ key, key ∉ option_names → constructor_options d !! key = None)
    as Hout.
  { intros key Hk. rewrite constructor_options_lookup.
    by rewrite assoc_outside. }
  split.
  - intros key [v Hv]. destruct (decide (key ∈ option_names)) as [|Hk]; [done |].
    rewrite (Hout key Hk) in Hv. discriminate.
  - apply Hout. unfold option_names. rewrite !elem_of_cons, elem_of_nil.
    intros H. repeat (destruct H as [H|H]; [discriminate |]). exact H.
Qed.

(** ** The attachment *)

Lemma warnings_On ts : warnings (map GeocoderOn ts) = [].
Proof. by apply omap_GeocoderOn. Qed.

Lemma warnings_deprecated ev :
  warnings (deprecated ev) =
  (List.filter (λ p, observed p.1) (legacy_outputs ev)).*2.
Proof.
  unfold deprecated, legacy_outputs. cbn [List.filter fst].
  destruct (observed (GeocoderEvent.results ev)),
    (observed (GeocoderEvent.result ev)),
    (observed (GeocoderEvent.error ev)); reflexivity.
Qed.

(** X3.  An attachment warns about exactly the deprecated outputs
    [results], [result] and [error] that have a subscriber, once each and
    in this order, naming the output that replaces it; the outputs with
    the current names cause no warning. *)
Theorem deprecation_warnings_follow_legacy_listeners w :
  control w = None →
  ∃ w', onMapCreated w = Return tt w' ∧
        warnings (log w') =
          warnings (log w) ++
          (List.filter (λ p, observed p.1)
             (legacy_outputs (outputs (this w)))).*2.
Proof.
  intros Hc. exists (attached w). split; [by apply onMapCreated_free |].
  unfold attached; cbn [log]. unfold warnings at 1.
  rewrite !omap_app. fold warnings.
  rewrite warnings_deprecated, warnings_On. cbn. by rewrite app_nil_r.
Qed.

Lemma deprecation_warnings_follow_legacy_listeners_witness :
  (∃ w', onMapCreated (created Inputs.initial Scene.everybody JUndefined
                         Sample.top_right) = Return tt w' ∧
         warnings (log w') =
           [] ++ [ ("results", "geocoderResults"); ("result", "geocoderResult");
                   ("error", "geocoderError") ]) ∧
  (∃ w', onMapCreated (created Inputs.initial Scene.current_names JUndefined
                         Sample.top_right) = Return tt w' ∧
         warnings (log w') = [] ++ []).
Proof.
  split.
  - exact (deprecation_warnings_follow_legacy_listeners
             (created Inputs.initial Scene.everybody JUndefined
                Sample.top_right) eq_refl).
  - exact (deprecation_warnings_follow_legacy_listeners
             (created Inputs.initial Scene.current_names JUndefined
                Sample.top_right) eq_refl).
Defined.

Lemma live_calls_deprecated ev : live_calls (deprecated ev) = [].
Proof.
  unfold deprecated.
  repeat match goal with |- context [if ?b then _ else _] => destruct b end;
    reflexivity.
Qed.

Lemma live_calls_On ts : live_calls (map GeocoderOn ts) = [].
Proof. induction ts as [|t ts IH]; [done |]. exact IH. Qed.

Lemma live_calls_attached w : live_calls (log (attached w)) = live_calls (log w).
Proof.
  unfold live_calls, attached; cbn [log]. rewrite !List.filter_app.
  fold (live_calls (deprecated (outputs (this w)))).
  fold (live_calls (map GeocoderOn (hooked (outputs (this w))))).
  rewrite live_calls_deprecated, live_calls_On. cbn. by rewrite app_nil_r.
Qed.

Lemma controls_added_attached w :
  controls_added (log (attached w)) =
  controls_added (log w) ++ [(Some (fresh w), position w)].
Proof.
  unfold controls_added, attached; cbn [log].
  rewrite !omap_app.
  by rewrite omap_deprecated, omap_GeocoderOn by done.
Qed.

(** X4.  An attachment that goes through puts the widget it has built
    into the slot of the host control and hands that widget, with the
    position of the host, to [mapService.addControl]: once, and as the
    last call of the attachment, after the listeners are registered. *)
Theorem attachment_places_the_widget w :
  control w = None →
  ∃ w' g before,
    onMapCreated w = Return tt w' ∧
    geocoder (this w') = Some g ∧
    control w' = Some (g_ref g) ∧
    controls_added (log w') =
      controls_added (log w) ++ [(Some (g_ref g), position w)] ∧
    log w' = before ++ [MapServiceAddControl (Some (g_ref g)) (position w)] ∧
    registrations before = registrations (log w').
Proof.
  intros Hc.
  exists (attached w),
    {| g_ref := fresh w; g_options := constructor_options (this w);
       g_listeners := hooked (outputs (this w)) |},
    (log w ++ [NewMapboxGeocoder (constructor_options (this w))] ++
     deprecated (outputs (this w)) ++
     map GeocoderOn (hooked (outputs (this w)))).
  split; [by apply onMapCreated_free |].
  split; [done |]. split; [done |].
  split; [apply controls_added_attached |].
  assert (log (attached w) =
          (log w ++ [NewMapboxGeocoder (constructor_options (this w))] ++
           deprecated (outputs (this w)) ++
           map GeocoderOn (hooked (outputs (this w)))) ++
          [MapServiceAddControl (Some (fresh w)) (position w)]) as Hlog.
  { unfold attached; cbn [log]. by rewrite <- !app_assoc. }
  split; [exact Hlog |].
  rewrite Hlog. unfold registrations at 2. rewrite omap_app. cbn.
  by rewrite app_nil_r.
Qed.

Lemma attachment_places_the_widget_witness :
  ∃ w' g before,
    onMapCreated (created Inputs.initial Sample.both_results JUndefined
                    Sample.top_right) = Return tt w' ∧
    geocoder (this w') = Some g ∧
    control w' = Some (g_ref g) ∧
    controls_added (log w') = [] ++ [(Some (g_ref g), Sample.top_right)] ∧
    log w' = before ++ [MapServiceAddControl (Some (g_ref g)) Sample.top_right] ∧
    registrations before = registrations (log w').
Proof.
  exact (attachment_places_the_widget
           (created Inputs.initial Sample.both_results JUndefined
              Sample.top_right) eq_refl).
Defined.

(** X5.  An attachment neither queries the widget, nor sets its
    proximity, nor emits on any output: the proximity bound at that time,
    if there is one, reaches the widget as the option [proximity] of its
    constructor. *)
Theorem attachment_only_sets_up w :
  control w = None →
  ∃ w' options,
    onMapCreated w = Return tt w' ∧
    g_options <$> geocoder (this w') = Some options ∧
    live_calls (log w') = live_calls (log w) ∧
    options !! "proximity" =
      match Inputs.proximity (inputs (this w)) with
      | JUndefined => None
      | v => Some v
      end.
Proof.
  intros Hc. exists (attached w), (constructor_options (this w)).
  split; [by apply onMapCreated_free |]. split; [done |].
  split; [apply live_calls_attached |].
  rewrite constructor_options_lookup. simpl.
  by destruct (Inputs.proximity (inputs (this w))).
Qed.

Lemma attachment_only_sets_up_witness :
  (∃ w' options,
     onMapCreated
       (created (Inputs.mk JUndefined JUndefined JUndefined JUndefined
                   JUndefined JUndefined JUndefined JUndefined JUndefined
                   JUndefined JUndefined JUndefined JUndefined (JBool false)
                   (JRef 4) (JStr "Paris"))
          Scene.everybody (JStr "B") Sample.top_right) = Return tt w' ∧
     g_options <$> geocoder (this w') = Some options ∧
     live_calls (log w') = live_calls [] ∧
     options !! "proximity" = Some (JRef 4)) ∧
  (∃ w' options,
     onMapCreated
       (created Inputs.initial Scene.everybody (JStr "B") Sample.top_right)
     = Return tt w' ∧
     g_options <$> geocoder (this w') = Some options ∧
     live_calls (log w') = live_calls [] ∧
     options !! "proximity" = None).
Proof.
  split.
  - exact (attachment_only_sets_up
             (created (Inputs.mk JUndefined JUndefined JUndefined JUndefined
                         JUndefined JUndefined JUndefined JUndefined JUndefined
                         JUndefined JUndefined JUndefined JUndefined
                         (JBool false) (JRef 4) (JStr "Paris"))
                Scene.everybody (JStr "B") Sample.top_right) eq_refl).
  - exact (attachment_only_sets_up
             (created Inputs.initial Scene.everybody (JStr "B")
                Sample.top_right) eq_refl).
Defined.

(** ** Changes outside the live inputs *)

Lemma deliver_Changes_detached w now changes :
  geocoder (this w) = None →
  deliver (Changes now changes) w =
  Return tt (with_this (with_inputs now (this w)) w).
Proof.
  intros Hg. unfold deliver.
  erewrite bind_Return; [|reflexivity].
  by apply ngOnChanges_detached.
Qed.

(** X6.  As long as no widget is attached, change notifications are
    dropped: whatever they carry, [proximity] and [searchInput] included,
    no call is made, and the directive stays without widget. *)
Theorem changes_before_attachment_are_dropped ns : ∀ w,
  geocoder (this w) = None →
  ∃ w', run (map notification ns) w = Return tt w' ∧
        log w' = log w ∧
        geocoder (this w') = None ∧
        control w' = control w.
Proof.
  induction ns as [|[now changes] ns IH]; intros w Hg.
  - by exists w.
  - destruct (IH (with_this (with_inputs now (this w)) w) Hg)
      as (w' & Hr & Hlog & Hg' & Hc).
    exists w'. split; [|by split].
    cbn [map run notification fst snd].
    erewrite bind_Return; [|by apply deliver_Changes_detached]. exact Hr.
Qed.

Lemma changes_before_attachment_are_dropped_witness :
  ∃ w', run (map notification
               [ (Sample.bound JUndefined (JBool false) (JStr "Oslo"),
                  Sample.typed (JStr "Oslo") true);
                 (Sample.bound JUndefined (JBool false) (JStr "Oslo"),
                  Sample.moved (JRef 11) false) ])
            (subscribed Inputs.initial Sample.nobody JUndefined
               Sample.top_right) = Return tt w' ∧
        log w' = [] ∧
        geocoder (this w') = None ∧
        control w' = None.
Proof.
  exact (changes_before_attachment_are_dropped
           [ (Sample.bound JUndefined (JBool false) (JStr "Oslo"),
              Sample.typed (JStr "Oslo") true);
             (Sample.bound JUndefined (JBool false) (JStr "Oslo"),
              Sample.moved (JRef 11) false) ]
           (subscribed Inputs.initial Sample.nobody JUndefined
              Sample.top_right) eq_refl).
Defined.

(** X7.  A change notification that carries neither [proximity] nor
    [searchInput] reaches no one: the inputs that configure the widget at
    its construction are not pushed to an attached widget when they
    change later. *)
Theorem other_inputs_are_not_live w g now changes :
  geocoder (this w) = Some g →
  changes !! "proximity" = None →
  changes !! "searchInput" = None →
  ∃ w', deliver (Changes now changes) w = Return tt w' ∧
        log w' = log w ∧
        geocoder (this w') = Some g.
Proof.
  intros Hg Hp Hs. eexists. split; [by eapply deliver_Changes |].
  cbn [with_log log this with_this geocoder with_inputs].
  unfold change_effects, proximity_pushed. rewrite Hp, Hs.
  split; [by rewrite app_nil_r | exact Hg].
Qed.

Lemma other_inputs_are_not_live_witness :
  ∃ w', deliver (Changes Inputs.initial Scene.recountried)
          (wired Inputs.initial Sample.nobody JUndefined Sample.top_right)
        = Return tt w' ∧
        log w' =
          log (wired Inputs.initial Sample.nobody JUndefined Sample.top_right).
Proof.
  destruct (other_inputs_are_not_live
              (wired Inputs.initial Sample.nobody JUndefined Sample.top_right)
              _ Inputs.initial Scene.recountried eq_refl)
    as (w' & Hd & Hlog & _).
  - vm_compute. reflexivity.
  - vm_compute. reflexivity.
  - exists w'. split; [exact Hd | exact Hlog].
Defined.

(** X8.  When one notification carries a later change of [proximity] and
    a change of [searchInput], [setProximity] is called before [query]. *)
Theorem proximity_is_pushed_before_the_query w g now changes p s :
  geocoder (this w) = Some g →
  changes !! "proximity" = Some p → firstChange p = false →
  changes !! "searchInput" = Some s →
  ∃ w', deliver (Changes now changes) w = Return tt w' ∧
        log w' = log w ++ [ GeocoderSetProximity (currentValue p);
                            GeocoderQuery (Inputs.searchInput now) ].
Proof.
  intros Hg Hp Hfirst Hs. eexists. split; [by eapply deliver_Changes |].
  cbn [with_log log]. unfold change_effects, proximity_pushed.
  by rewrite Hp, Hfirst, Hs.
Qed.

Lemma proximity_is_pushed_before_the_query_witness :
  ∃ w', deliver
          (Changes (Sample.bound JUndefined (JBool false) (JStr "Oslo"))
             (Scene.moved_and_typed (JRef 11) (JStr "Oslo")))
          (wired Inputs.initial Sample.nobody JUndefined Sample.top_right)
        = Return tt w' ∧
        log w' =
          log (wired Inputs.initial Sample.nobody JUndefined Sample.top_right)
          ++ [GeocoderSetProximity (JRef 11); GeocoderQuery (JStr "Oslo")].
Proof.
  eapply (proximity_is_pushed_before_the_query
            (wired Inputs.initial Sample.nobody JUndefined Sample.top_right)
            _ (Sample.bound JUndefined (JBool false) (JStr "Oslo"))
            (Scene.moved_and_typed (JRef 11) (JStr "Oslo"))
            {| previousValue := JUndefined; currentValue := JRef 11;
               firstChange := false |}
            {| previousValue := JUndefined; currentValue := JStr "Oslo";
               firstChange := false |}).
  - reflexivity.
  - vm_compute. reflexivity.
  - reflexivity.
  - vm_compute. reflexivity.
Defined.

(** ** A directive without initial search *)

Lemma deliver_MapLoaded_unsubscribed w :
  mapLoaded_subscriptions w = 0 → deliver MapLoaded w = Return tt w.
Proof.
  intros Hn. unfold deliver.
  rewrite (bind_Return _ _ _ 0 w) by (unfold gets; by rewrite Hn).
  reflexivity.
Qed.

Lemma run_MapLoaded_unsubscribed n w :
  mapLoaded_subscriptions w = 0 →
  run (replicate n MapLoaded) w = Return tt w.
Proof.
  intros Hn. induction n as [|n IH]; [reflexivity |].
  cbn [replicate run].
  erewrite bind_Return; [|by apply deliver_MapLoaded_unsubscribed]. exact IH.
Qed.

Lemma run_app ss1 ss2 w w1 :
  run ss1 w = Return tt w1 → run (ss1 ++ ss2) w = run ss2 w1.
Proof.
  revert w. induction ss1 as [|s ss1 IH]; intros w.
  - cbn [run app]. by intros [= ->].
  - cbn [run app]. unfold mbind, M_bind.
    destruct (deliver s w) as [[] w'|e w']; [apply IH | discriminate].
Qed.

Lemma run_notifications_detached ns : ∀ w,
  geocoder (this w) = None →
  ∃ i', run (map notification ns) w =
        Return tt (with_this (with_inputs i' (this w)) w).
Proof.
  induction ns as [|[now changes] ns IH]; intros w Hg.
  - exists (inputs (this w)). by destruct w as [[] ? ? ? ? ? ?].
  - destruct (IH (with_this (with_inputs now (this w)) w) Hg) as (i' & Hr).
    exists i'. cbn [map run notification fst snd].
    erewrite bind_Return; [|by apply deliver_Changes_detached]. exact Hr.
Qed.

Lemma deliver_MapCreated_once w :
  control w = None → mapCreated_subscriptions w = 1 →
  deliver MapCreated w = Return tt (attached w).
Proof.
  intros Hc Hn. unfold deliver.
  rewrite (bind_Return _ _ _ 1 w) by (unfold gets; by rewrite Hn).
  cbn [times]. erewrite bind_Return; [|by apply onMapCreated_free].
  reflexivity.
Qed.

(** X9.  When [searchInput] is falsy as [ngAfterContentInit] runs, unset
    or the empty string, the directive does not subscribe to
    [mapLoaded$]: whatever is bound before the map is created, a search
    input included, and however often the map reports that it has
    loaded, the widget is not queried. *)
Theorem no_initial_query_without_search_input i ev key pos ns n :
  truthy (Inputs.searchInput i) = false →
  ∃ w', run (AfterContentInit :: map notification ns ++
             MapCreated :: replicate n MapLoaded)
            (created i ev key pos) = Return tt w' ∧
        queries (log w') = [].
Proof.
  intros Hs.
  destruct (run_notifications_detached ns (subscribed i ev key pos) eq_refl)
    as (i' & Hns).
  set (w1 := with_this (with_inputs i' (this (subscribed i ev key pos)))
               (subscribed i ev key pos)) in *.
  exists (attached w1). split.
  - cbn [run].
    erewrite bind_Return; [|apply deliver_AfterContentInit_created].
    rewrite (run_app _ _ _ _ Hns). cbn [run].
    erewrite bind_Return; [|by apply deliver_MapCreated_once].
    apply run_MapLoaded_unsubscribed.
    unfold w1, subscribed.
    cbn [attached mapLoaded_subscriptions with_subscriptions with_this].
    by rewrite Hs.
  - by rewrite queries_attached.
Qed.

Lemma no_initial_query_without_search_input_witness :
  ∃ w', run (AfterContentInit ::
             map notification
               [ (Sample.bound JUndefined (JBool false) (JStr "Paris"),
                  Sample.typed (JStr "Paris") true) ] ++
             MapCreated :: replicate 2 MapLoaded)
            (created (Sample.bound JUndefined (JBool false) (JStr ""))
               Sample.nobody (JStr "B") Sample.top_right) = Return tt w' ∧
        queries (log w') = [].
Proof.
  exact (no_initial_query_without_search_input
           (Sample.bound JUndefined (JBool false) (JStr ""))
           Sample.nobody (JStr "B") Sample.top_right
           [ (Sample.bound JUndefined (JBool false) (JStr "Paris"),
              Sample.typed (JStr "Paris") true) ] 2 eq_refl).
Defined.

(** X18.  The query issued when the map has loaded carries the search
    input as it is at that time, not as it was when the subscription was
    made: a search input that changes between the attachment and the
    loading of the map is queried at the change and again, with the same
    value, when the map has loaded. *)
Theorem load_query_uses_the_current_search_input i ev key pos now changes :
  truthy (Inputs.searchInput i) = true →
  ∃ w', run [AfterContentInit; MapCreated; Changes now changes; MapLoaded]
            (created i ev key pos) = Return tt w' ∧
        queries (log w') =
          match changes !! "searchInput" with
          | Some _ => [Inputs.searchInput now; Inputs.searchInput now]
          | None => [Inputs.searchInput now]
          end.
Proof.
  intros Hs. rewrite attach_run.
  pose proof (deliver_Changes (wired i ev key pos) _ now changes eq_refl) as Hd.
  set (w1 := with_log _ _) in Hd.
  exists (with_log (log w1 ++ [GeocoderQuery (Inputs.searchInput now)]) w1).
  split.
  - cbn [run]. erewrite bind_Return; [|exact Hd].
    erewrite bind_Return; [reflexivity |].
    eapply (deliver_MapLoaded_once w1); [reflexivity |].
    unfold w1, wired, subscribed.
    cbn [attached mapLoaded_subscriptions with_subscriptions with_this
         with_log]. by rewrite Hs.
  - cbn [with_log log]. unfold w1. cbn [with_log log].
    unfold queries at 1. rewrite !omap_app. fold queries.
    unfold wired at 1. rewrite queries_attached, queries_change_effects.
    cbn [with_inputs inputs]. by destruct (changes !! "searchInput").
Qed.

Lemma load_query_uses_the_current_search_input_witness :
  ∃ w', run [ AfterContentInit; MapCreated;
              Changes (Sample.bound JUndefined (JBool false) (JStr "Oslo"))
                (Sample.typed (JStr "Oslo") false);
              MapLoaded ]
            (created (Sample.bound JUndefined (JBool false) (JStr "Paris"))
               Sample.nobody (JStr "B") Sample.top_right) = Return tt w' ∧
        queries (log w') = [JStr "Oslo"; JStr "Oslo"].
Proof.
  exact (load_query_uses_the_current_search_input
           (Sample.bound JUndefined (JBool false) (JStr "Paris"))
           Sample.nobody (JStr "B") Sample.top_right
           (Sample.bound JUndefined (JBool false) (JStr "Oslo"))
           (Sample.typed (JStr "Oslo") false) eq_refl).
Defined.

(** ** The events of the widget *)

Lemma listeners_for_hooked ev e g :
  g_listeners g = hooked ev →
  listeners_for (event_type e) g =
  if has_listeners ev (event_type e) then 1 else 0.
Proof.
  intros Hl. unfold listeners_for. rewrite Hl, hooked_filter.
  unfold event_types. cbn [List.filter].
  destruct e; cbn [event_type];
    destruct (has_listeners ev "results"), (has_listeners ev "result"),
      (has_listeners ev "error"), (has_listeners ev "loading"),
      (has_listeners ev "clear"); reflexivity.
Qed.

Lemma deliver_widget ev e w g :
  geocoder (this w) = Some g → g_listeners g = hooked ev →
  ∃ w', deliver (Widget e) w = Return tt w' ∧
        geocoder (this w') = Some g ∧
        lastResultId (this w') =
          (widget_step ev (lastResultId (this w)) e).2 ∧
        log w' = log w ++ (widget_step ev (lastResultId (this w)) e).1.
Proof.
  intros Hg Hl. unfold deliver.
  rewrite (bind_Return _ _ _ (this w) w) by reflexivity.
  rewrite Hg, (listeners_for_hooked ev e g Hl). unfold widget_step.
  destruct w as [[i ev' g' last key] c pos mc ml fr lg]; simpl in Hg.
  destruct (has_listeners ev (event_type e)).
  - cbn [times].
    destruct e; unfold listener, strict_ne, strict_eq, zone_run; run_M;
      try (eexists; split; [reflexivity |]; simpl; auto).
    case_bool_decide as Hlast; simpl.
    + subst last. rewrite decide_True by done.
      eexists; split; [reflexivity |]. simpl. rewrite app_nil_r. auto.
    + rewrite decide_False by congruence.
      eexists; split; [reflexivity |]. simpl. auto.
  - eexists; split; [reflexivity |]. simpl. rewrite app_nil_r. auto.
Qed.

Lemma run_widgets ev es : ∀ w g,
  geocoder (this w) = Some g → g_listeners g = hooked ev →
  ∃ w', run (map Widget es) w = Return tt w' ∧
        geocoder (this w') = Some g ∧
        log w' = log w ++ widget_effects ev (lastResultId (this w)) es.
Proof.
  induction es as [|e es IH]; intros w g Hg Hl.
  - exists w. split; [reflexivity |]. split; [done |].
    simpl. by rewrite app_nil_r.
  - destruct (deliver_widget ev e w g Hg Hl) as (w1 & Hd & Hg1 & Hl1 & Hlog1).
    destruct (IH w1 g Hg1 Hl) as (w2 & Hr & Hg2 & Hlog2).
    exists w2. split; [|split; [exact Hg2 |]].
    + cbn [map run]. erewrite bind_Return; [|exact Hd]. exact Hr.
    + rewrite Hlog2, Hlog1, Hl1. cbn [widget_effects].
      by rewrite app_assoc.
Qed.

(** The log of a directive that is created and attached and then receives
    events of the widget. *)
Lemma attach_then_widgets i ev key pos es :
  ∃ w', run (AfterContentInit :: MapCreated :: map Widget es)
            (created i ev key pos) = Return tt w' ∧
        log w' = log (wired i ev key pos) ++ widget_effects ev JUndefined es.
Proof.
  rewrite attach_run.
  destruct (run_widgets ev es (wired i ev key pos) _ eq_refl eq_refl)
    as (w' & Hr & _ & Hlog).
  by exists w'.
Qed.

Lemma emitted_paired ev type current legacy :
  (type = "results" ∧ current = "geocoderResults" ∧ legacy = "results") ∨
  (type = "error" ∧ current = "geocoderError" ∧ legacy = "error") →
  ∀ es last,
    emitted current (widget_effects ev last es) =
      (if has_listeners ev type then of_type type es else []) ∧
    emitted legacy (widget_effects ev last es) =
      (if has_listeners ev type then of_type type es else []).
Proof.
  intros Hnames es. induction es as [|e es IH]; intros last.
  - destruct (has_listeners ev type); by split.
  - cbn [widget_effects]. rewrite !emitted_app.
    destruct (IH (widget_step ev last e).2) as [IH1 IH2]. rewrite IH1, IH2.
    unfold of_type. cbn [List.filter]. unfold widget_step.
    destruct Hnames as [(-> & -> & ->)|(-> & -> & ->)];
      destruct e as [v|r|v|v|]; cbn [event_type];
      repeat match goal with
             | |- context [has_listeners ?ev ?t] =>
                 destruct (has_listeners ev t)
             | |- context [decide (?a = ?b)] => destruct (decide (a = b))
             end; by split.
Qed.

Lemma emitted_single ev type :
  type = "loading" ∨ type = "clear" →
  ∀ es last,
    emitted type (widget_effects ev last es) =
      if has_listeners ev type then of_type type es else [].
Proof.
  intros Hnames es. induction es as [|e es IH]; intros last.
  - by destruct (has_listeners ev type).
  - cbn [widget_effects]. rewrite !emitted_app.
    rewrite (IH (widget_step ev last e).2).
    unfold of_type. cbn [List.filter]. unfold widget_step.
    destruct Hnames as [->| ->];
      destruct e as [v|r|v|v|]; cbn [event_type];
      repeat match goal with
             | |- context [has_listeners ?ev ?t] =>
                 destruct (has_listeners ev t)
             | |- context [decide (?a = ?b)] => destruct (decide (a = b))
             end; reflexivity.
Qed.

Lemma emitted_result_effects ev es : ∀ last,
  emitted "geocoderResult" (widget_effects ev last es) =
    (if has_listeners ev "result"
     then map EvResult (forwarded last (results_of es)) else []) ∧
  emitted "result" (widget_effects ev last es) =
    (if has_listeners ev "result"
     then map EvResult (forwarded last (results_of es)) else []).
Proof.
  induction es as [|e es IH]; intros last.
  - destruct (has_listeners ev "result"); by split.
  - cbn [widget_effects]. rewrite !emitted_app.
    destruct (IH (widget_step ev last e).2) as [IH1 IH2]. rewrite IH1, IH2.
    unfold widget_step, results_of.
    change (e :: es) with ([e] ++ es). rewrite omap_app.
    destruct e as [v|r|v|v|]; cbn [event_type];
      repeat match goal with
             | |- context [has_listeners ?ev ?t] =>
                 destruct (has_listeners ev t)
             end; simpl;
      try destruct (decide (id r = last)); by split.
Qed.

Lemma emitted_after_attachment channel i ev key pos l :
  emitted channel (log (wired i ev key pos) ++ l) = emitted channel l.
Proof. by rewrite emitted_app, emitted_wired. Qed.

(** X10.  Every [results] event of the widget is re-emitted, with the
    event object it came with, on [geocoderResults] and on [results], and
    every [error] event on [geocoderError] and on [error], provided one
    of the two outputs had a subscriber at the attachment: nothing is
    dropped or reordered, repeats included, and the two outputs of a pair
    receive the same sequence. *)
Theorem paired_events_reach_both_outputs i ev key pos es :
  ∃ w', run (AfterContentInit :: MapCreated :: map Widget es)
            (created i ev key pos) = Return tt w' ∧
        emitted "geocoderResults" (log w') =
          (if has_listeners ev "results" then of_type "results" es else []) ∧
        emitted "results" (log w') = emitted "geocoderResults" (log w') ∧
        emitted "geocoderError" (log w') =
          (if has_listeners ev "error" then of_type "error" es else []) ∧
        emitted "error" (log w') = emitted "geocoderError" (log w').
Proof.
  destruct (attach_then_widgets i ev key pos es) as (w' & Hr & Hlog).
  exists w'. split; [exact Hr |].
  rewrite Hlog, !emitted_after_attachment.
  destruct (emitted_paired ev "results" "geocoderResults" "results"
              (or_introl (conj eq_refl (conj eq_refl eq_refl))) es JUndefined)
    as [-> ->].
  destruct (emitted_paired ev "error" "geocoderError" "error"
              (or_intror (conj eq_refl (conj eq_refl eq_refl))) es JUndefined)
    as [-> ->].
  done.
Qed.

Lemma has_listeners_loading ev :
  has_listeners ev "loading" = observed (GeocoderEvent.loading ev).
Proof. unfold has_listeners, outward. simpl. apply orb_false_r. Qed.

Lemma has_listeners_clear ev :
  has_listeners ev "clear" = observed (GeocoderEvent.clear ev).
Proof. unfold has_listeners, outward. simpl. apply orb_false_r. Qed.

(** X11.  The [loading] and [clear] events of the widget are re-emitted
    on the output of the same name, each of them and in order, when that
    output had a subscriber at the attachment, and not at all when it had
    none. *)
Theorem loading_and_clear_are_forwarded i ev key pos es :
  ∃ w', run (AfterContentInit :: MapCreated :: map Widget es)
            (created i ev key pos) = Return tt w' ∧
        emitted "loading" (log w') =
          (if observed (GeocoderEvent.loading ev)
           then of_type "loading" es else []) ∧
        emitted "clear" (log w') =
          (if observed (GeocoderEvent.clear ev)
           then of_type "clear" es else []).
Proof.
  destruct (attach_then_widgets i ev key pos es) as (w' & Hr & Hlog).
  exists w'. split; [exact Hr |].
  rewrite Hlog, !emitted_after_attachment.
  rewrite (emitted_single ev "loading" (or_introl eq_refl)).
  rewrite (emitted_single ev "clear" (or_intror eq_refl)).
  by rewrite has_listeners_loading, has_listeners_clear.
Qed.

(** X12.  The suppression of repeated results looks at the [result]
    events only: whatever other events of the widget come in between, a
    [clear] included, a result is forwarded exactly when its id differs
    from the id of the result forwarded before it. *)
Theorem other_events_do_not_reset_the_last_result i ev key pos es :
  ∃ w', run (AfterContentInit :: MapCreated :: map Widget es)
            (created i ev key pos) = Return tt w' ∧
        emitted "geocoderResult" (log w') =
          (if has_listeners ev "result"
           then map EvResult (forwarded JUndefined (results_of es)) else []) ∧
        emitted "result" (log w') = emitted "geocoderResult" (log w').
Proof.
  destruct (attach_then_widgets i ev key pos es) as (w' & Hr & Hlog).
  exists w'. split; [exact Hr |].
  rewrite Hlog, !emitted_after_attachment.
  by destruct (emitted_result_effects ev es JUndefined) as [-> ->].
Qed.

(** A result selected, the search box cleared, the same result selected
    again: the second selection is not forwarded. *)
Remark reselection_after_clear_is_dropped :
  ∃ w', run (AfterContentInit :: MapCreated ::
             map Widget [ EvResult Sample.result_X; EvClear;
                          EvResult Sample.result_X' ])
            (created Inputs.initial Scene.everybody JUndefined
               Sample.top_right) = Return tt w' ∧
        emitted "geocoderResult" (log w') = [EvResult Sample.result_X] ∧
        emitted "clear" (log w') = [EvClear].
Proof.
  destruct (attach_then_widgets Inputs.initial Scene.everybody JUndefined
              Sample.top_right
              [ EvResult Sample.result_X; EvClear; EvResult Sample.result_X' ])
    as (w' & Hr & Hlog).
  exists w'. split; [exact Hr |].
  rewrite Hlog, !emitted_after_attachment. by split.
Qed.

Lemma forwarded_anonymous rs :
  Forall (λ r, id r = JUndefined) rs → forwarded JUndefined rs = [].
Proof.
  induction 1 as [|r rs Hr _ IH]; [reflexivity |].
  cbn [forwarded]. by rewrite decide_True.
Qed.

Lemma results_of_results rs : results_of (map EvResult rs) = rs.
Proof.
  unfold results_of. induction rs as [|r rs IH]; [reflexivity |].
  change (map EvResult (r :: rs)) with ([EvResult r] ++ map EvResult rs).
  rewrite omap_app, IH. reflexivity.
Qed.

(** X13.  A result without id is compared like any other: as long as the
    last forwarded id is [undefined], which it is from the start, results
    that carry no id are dropped, so a widget that delivers only such
    results never reaches the subscribers of [result] and
    [geocoderResult]. *)
Theorem results_without_id_are_dropped i ev key pos rs :
  Forall (λ r, id r = JUndefined) rs →
  ∃ w', run (AfterContentInit :: MapCreated :: map Widget (map EvResult rs))
            (created i ev key pos) = Return tt w' ∧
        emitted "geocoderResult" (log w') = [] ∧
        emitted "result" (log w') = [].
Proof.
  intros Hrs.
  destruct (attach_then_widgets i ev key pos (map EvResult rs))
    as (w' & Hr & Hlog).
  exists w'. split; [exact Hr |].
  rewrite Hlog, !emitted_after_attachment.
  destruct (emitted_result_effects ev (map EvResult rs) JUndefined) as [-> ->].
  rewrite results_of_results, (forwarded_anonymous rs Hrs).
  by destruct (has_listeners ev "result").
Qed.

Lemma results_without_id_are_dropped_witness :
  ∃ w', run (AfterContentInit :: MapCreated ::
             map Widget (map EvResult [Scene.anonymous 1; Scene.anonymous 2]))
            (created Inputs.initial Scene.everybody JUndefined
               Sample.top_right) = Return tt w' ∧
        emitted "geocoderResult" (log w') = [] ∧
        emitted "result" (log w') = [].
Proof.
  apply (results_without_id_are_dropped Inputs.initial Scene.everybody
           JUndefined Sample.top_right [Scene.anonymous 1; Scene.anonymous 2]).
  repeat constructor.
Defined.

Lemma forwarded_sublist rs : ∀ last, forwarded last rs `sublist_of` rs.
Proof.
  induction rs as [|r rs IH]; intros last; [constructor |].
  cbn [forwarded]. destruct (decide (id r = last)).
  - by apply sublist_cons.
  - by apply sublist_skip.
Qed.

Lemma forwarded_no_repeat rs : ∀ last, no_repeat last (forwarded last rs).
Proof.
  induction rs as [|r rs IH]; intros last; [exact I |].
  cbn [forwarded]. destruct (decide (id r = last)); [apply IH |].
  cbn [no_repeat]. split; [done | apply IH].
Qed.

(** X14.  The subscribers of [result] never see two results with the same
    id in a row, and the first result they see has an id: what is
    emitted is a subsequence of the results of the widget, in their
    order, in which no two neighbours share an id. *)
Theorem forwarded_results_never_repeat i ev key pos es :
  ∃ w' rs,
    run (AfterContentInit :: MapCreated :: map Widget es)
        (created i ev key pos) = Return tt w' ∧
    emitted "result" (log w') = map EvResult rs ∧
    emitted "geocoderResult" (log w') = map EvResult rs ∧
    rs `sublist_of` results_of es ∧
    no_repeat JUndefined rs.
Proof.
  destruct (attach_then_widgets i ev key pos es) as (w' & Hr & Hlog).
  exists w',
    (if has_listeners ev "result" then forwarded JUndefined (results_of es)
     else []).
  split; [exact Hr |].
  rewrite Hlog, !emitted_after_attachment.
  destruct (emitted_result_effects ev es JUndefined) as [-> ->].
  destruct (has_listeners ev "result").
  - split; [done |]. split; [done |].
    split; [apply forwarded_sublist | apply forwarded_no_repeat].
  - split; [done |]. split; [done |]. split; [apply sublist_nil_l | exact I].
Qed.

(** X15.  Whether an event type is forwarded is decided at the
    attachment: for an event type none of whose outputs had a subscriber
    then, the events of the widget change nothing, whatever subscribers
    the outputs have by the time the event arrives. *)
Theorem late_subscribers_hear_nothing i ev key pos later e :
  has_listeners ev (event_type e) = false →
  deliver (Widget e)
    (with_this (with_outputs later (this (wired i ev key pos)))
       (wired i ev key pos)) =
  Return tt
    (with_this (with_outputs later (this (wired i ev key pos)))
       (wired i ev key pos)).
Proof.
  intros Hn.
  set (w := with_this (with_outputs later (this (wired i ev key pos)))
              (wired i ev key pos)).
  assert (∃ g, geocoder (this w) = Some g ∧ g_listeners g = hooked ev)
    as (g & Hg & Hl) by (eexists; split; reflexivity).
  unfold deliver.
  rewrite (bind_Return _ _ w (this w) w) by reflexivity.
  by rewrite Hg, (listeners_for_hooked ev e g Hl), Hn.
Qed.

Lemma late_subscribers_hear_nothing_witness :
  deliver (Widget (EvResult Sample.result_X))
    (with_this
       (with_outputs Scene.everybody
          (this (wired Inputs.initial Sample.both_results JUndefined
                   Sample.top_right)))
       (wired Inputs.initial Sample.both_results JUndefined Sample.top_right)) =
  Return tt
    (with_this
       (with_outputs Scene.everybody
          (this (wired Inputs.initial Sample.both_results JUndefined
                   Sample.top_right)))
       (wired Inputs.initial Sample.both_results JUndefined Sample.top_right)).
Proof.
  exact (late_subscribers_hear_nothing Inputs.initial Sample.both_results
           JUndefined Sample.top_right Scene.everybody
           (EvResult Sample.result_X) eq_refl).
Defined.

(** ** What holds along every run *)

Lemma settled_refl w : settled w w.
Proof. by repeat split. Qed.

Lemma settled_trans w1 w2 w3 : settled w1 w2 → settled w2 w3 → settled w1 w3.
Proof.
  intros (Hc1 & Hg1 & Hs1) (Hc2 & Hg2 & Hs2).
  repeat split; congruence.
Qed.

Lemma keeps_bind {A B} (m : M A) (k : A → M B) :
  keeps_setup m → (∀ a, keeps_setup (k a)) → keeps_setup (m ≫= k).
Proof.
  intros Hm Hk w. specialize (Hm w). unfold mbind, M_bind.
  destruct (m w) as [a w1|e w1]; cbn [final] in *; [|exact Hm].
  eapply settled_trans; [exact Hm | apply Hk].
Qed.

Lemma keeps_ret {A} (a : A) : keeps_setup (mret a).
Proof. intros w. apply settled_refl. Qed.

Lemma keeps_throw {A} msg : keeps_setup (throw (A := A) msg).
Proof. intros w. apply settled_refl. Qed.

Lemma keeps_gets {A} (f : World → A) : keeps_setup (gets f).
Proof. intros w. apply settled_refl. Qed.

Lemma keeps_modify f : (∀ w, settled w (f w)) → keeps_setup (modify f).
Proof. intros Hf w. apply Hf. Qed.

Lemma keeps_tell e : is_setup e = false → keeps_setup (tell e).
Proof.
  intros He. apply keeps_modify. intros w. repeat split.
  unfold setup_calls. cbn [with_log log]. rewrite List.filter_app.
  cbn [List.filter]. rewrite He. apply app_nil_r.
Qed.

Lemma keeps_when b m : keeps_setup m → keeps_setup (when b m).
Proof. intros Hm. destruct b; [exact Hm | apply keeps_ret]. Qed.

Lemma keeps_times n m : keeps_setup m → keeps_setup (times n m).
Proof.
  intros Hm. induction n as [|n IH]; [apply keeps_ret |].
  cbn [times]. apply keeps_bind; [exact Hm | intros _; exact IH].
Qed.

Lemma keeps_on_geocoder {A} method (k : MapboxGeocoder → M A) :
  (∀ g, keeps_setup (k g)) → keeps_setup (on_geocoder method k).
Proof.
  intros Hk. unfold on_geocoder. apply keeps_bind; [apply keeps_gets |].
  intros d. destruct (geocoder d); [apply Hk | apply keeps_throw].
Qed.

Lemma keeps_ngAfterContentInit : keeps_setup ngAfterContentInit.
Proof.
  unfold ngAfterContentInit.
  apply keeps_bind; [by apply keeps_modify |]. intros _.
  apply keeps_bind; [apply keeps_gets |]. intros d.
  apply keeps_when. by apply keeps_modify.
Qed.

Lemma keeps_onMapLoaded : keeps_setup onMapLoaded.
Proof.
  unfold onMapLoaded, geocoder_query.
  apply keeps_bind; [apply keeps_gets |]. intros d.
  apply keeps_on_geocoder. intros _. by apply keeps_tell.
Qed.

Lemma keeps_ngOnChanges changes : keeps_setup (ngOnChanges changes).
Proof.
  unfold ngOnChanges, geocoder_setProximity, geocoder_query.
  apply keeps_bind; [apply keeps_gets |]. intros d.
  destruct (geocoder d); [|apply keeps_ret].
  apply keeps_bind.
  - destruct (changes !! "proximity"); [|apply keeps_ret].
    apply keeps_when, keeps_on_geocoder. intros _. by apply keeps_tell.
  - intros _. destruct (changes !! "searchInput"); [|apply keeps_ret].
    apply keeps_bind; [apply keeps_gets |]. intros d'.
    apply keeps_on_geocoder. intros _. by apply keeps_tell.
Qed.

Lemma keeps_listener e : keeps_setup (listener e).
Proof.
  destruct e; unfold listener, zone_run; try by apply keeps_tell.
  apply keeps_bind; [apply keeps_gets |]. intros d.
  destruct (strict_ne (lastResultId d) (id evt_result)); [|apply keeps_ret].
  apply keeps_bind; [by apply keeps_modify |]. intros _. by apply keeps_tell.
Qed.

Lemma keeps_deliver s : s ≠ MapCreated → keeps_setup (deliver s).
Proof.
  intros Hs. destruct s as [| | |now changes|e]; [| done | | |]; unfold deliver.
  - apply keeps_ngAfterContentInit.
  - apply keeps_bind; [apply keeps_gets |]. intros n.
    apply keeps_times, keeps_onMapLoaded.
  - apply keeps_bind; [by apply keeps_modify |]. intros _.
    apply keeps_ngOnChanges.
  - apply keeps_bind; [apply keeps_gets |]. intros d.
    destruct (geocoder d); [|apply keeps_ret].
    apply keeps_times, keeps_listener.
Qed.

Lemma onMapCreated_occupied w c :
  control w = Some c →
  onMapCreated w = Throw "Another control is already set for this control" w.
Proof.
  intros Hc. unfold onMapCreated.
  erewrite bind_Return; [|unfold gets; by rewrite Hc]. reflexivity.
Qed.

Lemma final_times_occupied n w c :
  control w = Some c → final (times n onMapCreated w) = w.
Proof.
  intros Hc. destruct n as [|n]; [reflexivity |].
  cbn [times]. erewrite bind_Throw; [|by eapply onMapCreated_occupied].
  reflexivity.
Qed.

Lemma final_times_free n w :
  control w = None → final (times (S n) onMapCreated w) = attached w.
Proof.
  intros Hc. cbn [times].
  erewrite bind_Return; [|by apply onMapCreated_free].
  by eapply final_times_occupied.
Qed.

Lemma final_run_cons s ss w :
  final (run (s :: ss) w) =
  match deliver s w with
  | Return _ w1 => final (run ss w1)
  | Throw _ w1 => w1
  end.
Proof.
  cbn [run]. unfold mbind, M_bind. by destruct (deliver s w).
Qed.

Lemma deliver_settled_when_occupied s w c :
  control w = Some c → settled w (final (deliver s w)).
Proof.
  intros Hc. destruct s; try (by apply keeps_deliver).
  unfold deliver.
  rewrite (bind_Return _ _ w (mapCreated_subscriptions w) w) by reflexivity.
  erewrite final_times_occupied by exact Hc. apply settled_refl.
Qed.

(** X16.  Once the slot of the host control holds a control, nothing that
    reaches the directive sets a widget up again: whatever sequence of
    lifecycle calls, map notifications, change notifications and widget
    events follows, and however it ends, the slot keeps its control and
    no widget is constructed, no listener registered, no deprecation
    warning issued and no control added to the map. *)
Theorem setup_happens_once ss : ∀ w c,
  control w = Some c →
  control (final (run ss w)) = Some c ∧
  setup_calls (log (final (run ss w))) = setup_calls (log w) ∧
  g_ref <$> geocoder (this (final (run ss w))) = g_ref <$> geocoder (this w).
Proof.
  induction ss as [|s ss IH]; intros w c Hc; [done |].
  rewrite final_run_cons.
  destruct (deliver_settled_when_occupied s w c Hc) as (Hc1 & Hg1 & Hs1).
  destruct (deliver s w) as [[] w1|e w1]; cbn [final] in *.
  - destruct (IH w1 c) as (Hc2 & Hs2 & Hg2); [congruence |].
    repeat split; congruence.
  - repeat split; congruence.
Qed.

Lemma setup_happens_once_witness :
  control (final (run [MapCreated; Widget (EvResult Sample.result_X);
                       MapLoaded; MapCreated]
                  (wired Inputs.initial Scene.everybody JUndefined
                     Sample.top_right))) = Some 0 ∧
  setup_calls
    (log (final (run [MapCreated; Widget (EvResult Sample.result_X);
                      MapLoaded; MapCreated]
                   (wired Inputs.initial Scene.everybody JUndefined
                      Sample.top_right)))) =
  setup_calls
    (log (wired Inputs.initial Scene.everybody JUndefined Sample.top_right)).
Proof.
  destruct (setup_happens_once
              [MapCreated; Widget (EvResult Sample.result_X); MapLoaded;
               MapCreated]
              (wired Inputs.initial Scene.everybody JUndefined
                 Sample.top_right) 0 eq_refl) as (Hc & Hs & _).
  split; [exact Hc | exact Hs].
Defined.

Lemma constructions_setup l : constructions (setup_calls l) = constructions l.
Proof.
  unfold constructions, setup_calls.
  induction l as [|e l IH]; [reflexivity |].
  change (e :: l) with ([e] ++ l).
  rewrite List.filter_app, !omap_app, IH. f_equal. by destruct e.
Qed.

Lemma settled_consistent w w' : settled w w' → consistent w → consistent w'.
Proof.
  intros (Hc & Hg & Hs) (Hcg & Hn). split.
  - congruence.
  - rewrite Hc, <- (constructions_setup (log w')), Hs, constructions_setup.
    exact Hn.
Qed.

Lemma consistent_attached w :
  control w = None → consistent w → consistent (attached w).
Proof.
  intros Hc (_ & Hn). rewrite Hc in Hn. split; [reflexivity |].
  rewrite constructions_attached, length_app.
  cbn [attached control length]. by rewrite Hn.
Qed.

Lemma deliver_consistent s w :
  consistent w → consistent (final (deliver s w)).
Proof.
  intros Hw.
  destruct s;
    try (eapply settled_consistent; [by apply keeps_deliver | exact Hw]).
  unfold deliver.
  rewrite (bind_Return _ _ w (mapCreated_subscriptions w) w) by reflexivity.
  destruct (control w) as [c|] eqn:Hc.
  - by erewrite final_times_occupied.
  - destruct (mapCreated_subscriptions w) as [|n]; [exact Hw |].
    rewrite final_times_free by exact Hc. by apply consistent_attached.
Qed.

Lemma run_consistent ss : ∀ w, consistent w → consistent (final (run ss w)).
Proof.
  induction ss as [|s ss IH]; intros w Hw; [exact Hw |].
  rewrite final_run_cons.
  pose proof (deliver_consistent s w Hw) as H1.
  destruct (deliver s w) as [[] w1|e w1]; cbn [final] in *; [by apply IH | done].
Qed.

(** X17.  A directive builds at most one widget in its life, and its
    [geocoder] and the slot of the host control always hold the same
    widget: after any sequence of lifecycle calls, map notifications,
    change notifications and widget events, however it ends, either both
    are empty and no widget was constructed, or both hold the one widget
    that was. *)
Theorem at_most_one_widget i ev key pos ss :
  consistent (final (run ss (created i ev key pos))) ∧
  (length (constructions (log (final (run ss (created i ev key pos))))) ≤ 1)%nat.
Proof.
  assert (consistent (final (run ss (created i ev key pos)))) as H.
  { apply run_consistent. by split. }
  split; [exact H |].
  destruct H as (_ & ->). destruct (control _); lia.
Qed.

Lemma null_default_credential_is_passed_witness :
  ∃ options,
    constructs (created (Sample.bound JUndefined (JBool false) JUndefined)
                  Sample.nobody JNull Sample.top_right) options ∧
    options !! "accessToken" = Some JNull.
Proof.
  apply (null_default_credential_is_passed
           (created (Sample.bound JUndefined (JBool false) JUndefined)
              Sample.nobody JNull Sample.top_right)); reflexivity.
Defined.

(** ** The queries of a whole run *)

Lemma queries_app l1 l2 : queries (l1 ++ l2) = queries l1 ++ queries l2.
Proof. apply omap_app. Qed.

Lemma listener_frame e w :
  ∃ w', listener e w = Return tt w' ∧
        geocoder (this w') = geocoder (this w) ∧
        mapLoaded_subscriptions w' = mapLoaded_subscriptions w ∧
        inputs (this w') = inputs (this w) ∧
        queries (log w') = queries (log w).
Proof.
  destruct w as [[i ev g last key] c pos mc ml fr lg].
  destruct e; unfold listener, zone_run; run_M;
    try (eexists; split; [reflexivity |]; cbn;
         repeat split; unfold queries; rewrite omap_app; cbn;
         by rewrite app_nil_r).
  destruct (strict_ne last (id evt_result)); cbn.
  - eexists; split; [reflexivity |]. cbn. repeat split.
    unfold queries. rewrite omap_app. cbn. by rewrite app_nil_r.
  - eexists; split; [reflexivity |]. by cbn.
Qed.

Lemma times_listener_frame n e : ∀ w,
  ∃ w', times n (listener e) w = Return tt w' ∧
        geocoder (this w') = geocoder (this w) ∧
        mapLoaded_subscriptions w' = mapLoaded_subscriptions w ∧
        inputs (this w') = inputs (this w) ∧
        queries (log w') = queries (log w).
Proof.
  induction n as [|n IH]; intros w; [by exists w |].
  destruct (listener_frame e w) as (w1 & Hl & Hg1 & Hm1 & Hi1 & Hq1).
  destruct (IH w1) as (w2 & Hr & Hg2 & Hm2 & Hi2 & Hq2).
  exists w2. split; [|repeat split; congruence].
  cbn [times]. erewrite bind_Return; [|exact Hl]. exact Hr.
Qed.

Lemma deliver_before_load s w g :
  before_load s = true → geocoder (this w) = Some g →
  ∃ w', deliver s w = Return tt w' ∧
        geocoder (this w') = Some g ∧
        mapLoaded_subscriptions w' = mapLoaded_subscriptions w ∧
        inputs (this w') = latest (inputs (this w)) [s] ∧
        queries (log w') = queries (log w) ++ change_queries [s].
Proof.
  intros Hs Hg. destruct s as [| | |now changes|e]; try discriminate.
  - eexists. split; [by eapply deliver_Changes |].
    cbn [with_log with_this with_inputs log this geocoder inputs
         mapLoaded_subscriptions latest foldl].
    repeat split; [exact Hg |].
    unfold queries at 1. rewrite omap_app. fold queries.
    rewrite queries_change_effects. cbn [with_inputs inputs].
    unfold change_queries. cbn [flat_map]. by rewrite app_nil_r.
  - unfold deliver.
    rewrite (bind_Return _ _ w (this w) w) by reflexivity. rewrite Hg.
    destruct (times_listener_frame (listeners_for (event_type e) g) e w)
      as (w' & Hr & Hg' & Hm & Hi & Hq).
    exists w'. split; [exact Hr |].
    repeat split; [congruence | exact Hm | exact Hi |].
    rewrite Hq. unfold change_queries. cbn [flat_map]. by rewrite app_nil_r.
Qed.

Lemma run_before_load ss : ∀ w g,
  forallb before_load ss = true → geocoder (this w) = Some g →
  ∃ w', run ss w = Return tt w' ∧
        geocoder (this w') = Some g ∧
        mapLoaded_subscriptions w' = mapLoaded_subscriptions w ∧
        inputs (this w') = latest (inputs (this w)) ss ∧
        queries (log w') = queries (log w) ++ change_queries ss.
Proof.
  induction ss as [|s ss IH]; intros w g Hss Hg.
  - exists w. split; [reflexivity |]. repeat split; [exact Hg |].
    unfold change_queries. cbn [flat_map]. by rewrite app_nil_r.
  - cbn [forallb] in Hss. apply andb_true_iff in Hss as [Hs Hss].
    destruct (deliver_before_load s w g Hs Hg)
      as (w1 & Hd & Hg1 & Hm1 & Hi1 & Hq1).
    destruct (IH w1 g Hss Hg1) as (w2 & Hr & Hg2 & Hm2 & Hi2 & Hq2).
    exists w2. split; [|split; [exact Hg2 |]].
    + cbn [run]. erewrite bind_Return; [|exact Hd]. exact Hr.
    + split; [congruence |]. split.
      * rewrite Hi2, Hi1. reflexivity.
      * rewrite Hq2, Hq1. unfold change_queries.
        change (s :: ss) with ([s] ++ ss).
        by rewrite flat_map_app, app_assoc.
Qed.

Lemma deliver_after_attachment s w g :
  after_attachment s = true → geocoder (this w) = Some g →
  mapLoaded_subscriptions w = 1 →
  ∃ w', deliver s w = Return tt w' ∧
        geocoder (this w') = Some g ∧
        mapLoaded_subscriptions w' = 1 ∧
        inputs (this w') = latest (inputs (this w)) [s] ∧
        queries (log w') = queries (log w) ++ run_queries (inputs (this w)) [s].
Proof.
  intros Hs Hg Hm. destruct s as [| | |now changes|e]; try discriminate.
  - exists (with_log
              (log w ++ [GeocoderQuery (Inputs.searchInput (inputs (this w)))])
              w).
    split; [by eapply deliver_MapLoaded_once |].
    cbn [with_log log this mapLoaded_subscriptions latest foldl run_queries].
    repeat split; [exact Hg | exact Hm |]. by rewrite queries_app.
  - destruct (deliver_before_load (Changes now changes) w g eq_refl Hg)
      as (w' & Hd & Hg' & Hm' & Hi & Hq).
    exists w'. split; [exact Hd |].
    repeat split; [exact Hg' | congruence | exact Hi |].
    rewrite Hq. unfold change_queries. cbn [flat_map run_queries].
    by rewrite !app_nil_r.
  - destruct (deliver_before_load (Widget e) w g eq_refl Hg)
      as (w' & Hd & Hg' & Hm' & Hi & Hq).
    exists w'. split; [exact Hd |].
    repeat split; [exact Hg' | congruence | exact Hi |].
    rewrite Hq. reflexivity.
Qed.

Lemma run_queries_cons cur s ss :
  after_attachment s = true →
  run_queries cur (s :: ss) =
  run_queries cur [s] ++ run_queries (latest cur [s]) ss.
Proof.
  destruct s as [| | |now changes|e]; try discriminate; intros _;
    cbn [run_queries latest foldl]; [reflexivity | | reflexivity].
  by rewrite app_nil_r.
Qed.

Lemma run_after_attachment ss : ∀ w g,
  forallb after_attachment ss = true → geocoder (this w) = Some g →
  mapLoaded_subscriptions w = 1 →
  ∃ w', run ss w = Return tt w' ∧
        queries (log w') = queries (log w) ++ run_queries (inputs (this w)) ss.
Proof.
  induction ss as [|s ss IH]; intros w g Hss Hg Hm.
  - exists w. split; [reflexivity |]. cbn [run_queries]. by rewrite app_nil_r.
  - cbn [forallb] in Hss. apply andb_true_iff in Hss as [Hs Hss].
    destruct (deliver_after_attachment s w g Hs Hg Hm)
      as (w1 & Hd & Hg1 & Hm1 & Hi1 & Hq1).
    destruct (IH w1 g Hss Hg1 Hm1) as (w2 & Hr & Hq2).
    exists w2. split.
    + cbn [run]. erewrite bind_Return; [|exact Hd]. exact Hr.
    + rewrite Hq2, Hq1, Hi1, (run_queries_cons _ s ss Hs).
      by rewrite app_assoc.
Qed.

(** C4 (amended).  When [searchInput] is set as [ngAfterContentInit]
    runs, the attachment itself issues no query.  Until the map has
    loaded, the widget is queried only for the changes of [searchInput]
    that are notified after the attachment, and not at all when there is
    none; every notification of [mapLoaded$] then issues one query with
    the search input as it is at that time: exactly one when the stream
    fires once, [n] when it fires [n] times.  In any run after the
    attachment the queries are, in order, one for each change of
    [searchInput] and one for each notification of [mapLoaded$]. *)
Theorem initial_query_once_per_map_loaded i ev key pos ss n :
  truthy (Inputs.searchInput i) = true →
  forallb before_load ss = true →
  (∃ w1, run (AfterContentInit :: MapCreated :: ss) (created i ev key pos)
         = Return tt w1 ∧
         queries (log w1) = change_queries ss) ∧
  (∃ w', run (AfterContentInit :: MapCreated :: ss ++ replicate n MapLoaded)
             (created i ev key pos) = Return tt w' ∧
         queries (log w') =
           change_queries ss ++
           replicate n (Inputs.searchInput (latest i ss))) ∧
  (∀ rs, forallb after_attachment rs = true →
         ∃ w', run (AfterContentInit :: MapCreated :: rs)
                   (created i ev key pos) = Return tt w' ∧
               queries (log w') = run_queries i rs).
Proof.
  intros Hs Hss.
  assert (mapLoaded_subscriptions (wired i ev key pos) = 1) as Hsub.
  { unfold wired, subscribed.
    cbn [attached mapLoaded_subscriptions with_subscriptions]. by rewrite Hs. }
  destruct (run_before_load ss (wired i ev key pos) _ Hss eq_refl)
    as (w1 & Hr1 & Hg1 & Hm1 & Hi1 & Hq1).
  assert (queries (log w1) = change_queries ss) as Hq.
  { rewrite Hq1. unfold wired at 1. by rewrite queries_attached. }
  split; [|split].
  - exists w1. split; [|exact Hq]. rewrite attach_run. exact Hr1.
  - destruct (run_MapLoaded n w1 _ Hg1) as (w' & Hr & Hlog);
      [congruence |].
    exists w'. split.
    + rewrite attach_run. by rewrite (run_app _ _ _ _ Hr1).
    + rewrite Hlog, queries_app, Hq, queries_replicate, Hi1. reflexivity.
  - intros rs Hrs.
    destruct (run_after_attachment rs (wired i ev key pos) _ Hrs eq_refl Hsub)
      as (w' & Hr & Hq').
    exists w'. split; [by rewrite attach_run |].
    rewrite Hq'. unfold wired at 1. by rewrite queries_attached.
Qed.

Lemma initial_query_once_per_map_loaded_witness :
  (∃ w1, run [AfterContentInit; MapCreated]
             (created (Sample.bound JUndefined (JBool false) (JStr "Paris"))
                Sample.nobody (JStr "B") Sample.top_right) = Return tt w1 ∧
         queries (log w1) = []) ∧
  (∃ w', run [AfterContentInit; MapCreated; MapLoaded]
             (created (Sample.bound JUndefined (JBool false) (JStr "Paris"))
                Sample.nobody (JStr "B") Sample.top_right) = Return tt w' ∧
         queries (log w') = [JStr "Paris"]) ∧
  (∃ w', run [ AfterContentInit; MapCreated; MapLoaded;
               Changes (Sample.bound JUndefined (JBool false) (JStr "Oslo"))
                 (Sample.typed (JStr "Oslo") false);
               MapLoaded ]
             (created (Sample.bound JUndefined (JBool false) (JStr "Paris"))
                Sample.nobody (JStr "B") Sample.top_right) = Return tt w' ∧
         queries (log w') = [JStr "Paris"; JStr "Oslo"; JStr "Oslo"]) ∧
  (∃ w', run [ AfterContentInit; MapCreated;
               Widget (EvResult Sample.result_X);
               Changes (Sample.bound JUndefined (JBool false) (JStr "Oslo"))
                 (Sample.typed (JStr "Oslo") false);
               MapLoaded ]
             (created (Sample.bound JUndefined (JBool false) (JStr "Paris"))
                Sample.nobody (JStr "B") Sample.top_right) = Return tt w' ∧
         queries (log w') = [JStr "Oslo"; JStr "Oslo"]).
Proof.
  split; [|split; [|split]].
  - exact (proj1 (initial_query_once_per_map_loaded
                    (Sample.bound JUndefined (JBool false) (JStr "Paris"))
                    Sample.nobody (JStr "B") Sample.top_right [] 0
                    eq_refl eq_refl)).
  - exact (proj1 (proj2 (initial_query_once_per_map_loaded
                    (Sample.bound JUndefined (JBool false) (JStr "Paris"))
                    Sample.nobody (JStr "B") Sample.top_right [] 1
                    eq_refl eq_refl))).
  - exact (proj2 (proj2 (initial_query_once_per_map_loaded
                    (Sample.bound JUndefined (JBool false) (JStr "Paris"))
                    Sample.nobody (JStr "B") Sample.top_right [] 0
                    eq_refl eq_refl))
             [ MapLoaded;
               Changes (Sample.bound JUndefined (JBool false) (JStr "Oslo"))
                 (Sample.typed (JStr "Oslo") false);
               MapLoaded ] eq_refl).
  - exact (proj1 (proj2 (initial_query_once_per_map_loaded
                    (Sample.bound JUndefined (JBool false) (JStr "Paris"))
                    Sample.nobody (JStr "B") Sample.top_right
                    [ Widget (EvResult Sample.result_X);
                      Changes
                        (Sample.bound JUndefined (JBool false) (JStr "Oslo"))
                        (Sample.typed (JStr "Oslo") false) ] 1
                    eq_refl eq_refl))).
Defined.
